(** * mpu9225stream: a shallow embedding of the MPU-9225 streaming driver

    The driver (src/mpu9225stream.py) talks to an accelerometer over I2C on a
    pyboard.  The Python functions are embedded as functions of a small
    state-and-exception monad over a [World]: the module's globals, the
    number of calls made so far to each primitive of the platform (pyb.I2C,
    pyb.delay, utime), and the log of the calls themselves.  What the
    platform answers is not in the repository; it is a [Platform] of oracles,
    indexed by call number, and every theorem quantifies over it. *)

From Stdlib Require Import ZArith QArith Lia List String Bool DecimalString Sorted.
From Stdlib.Strings Require Import Byte.
From stdpp Require Import base gmap.
Import ListNotations.

Open Scope Z_scope.

(** ** Python values the driver handles *)

(** The exceptions that the driver raises or lets through. *)
Inductive exn : Type :=
| OSError (msg : string)           (* transport failure, or "Failed to send" *)
| ValueError                       (* bytearray([...]) of an int outside range(256) *)
| KeyError (key : Z)               (* FULL_SCALE[...] of a missing key *)
| UnboundLocalError (name : string)(* a local read before its assignment *)
| TypeError                        (* int & float *)
| OverflowError.                   (* array('i').append of an int outside a C int *)

(** What running a piece of the driver ends in.  [OutOfFuel] is not a Python
    result: it marks a run of an unbounded loop that the model cut short. *)
Inductive outcome (A : Type) : Type :=
| Return (a : A)
| Raise (e : exn)
| OutOfFuel.
Arguments Return {A} a.
Arguments Raise {A} e.
Arguments OutOfFuel {A}.

(** ** twos_complement (lines 57-61) *)

(** [2 ** (num_bits - 1)] is an int for a non-negative exponent and a float
    otherwise; [val & mask] with a float mask is a TypeError. *)
Definition twos_complement (val num_bits : Z) : outcome Z :=
  if num_bits - 1 <? 0 then Raise TypeError
  else
    let mask := 2 ^ (num_bits - 1) in
    let twos_comp := - (Z.land val mask) + Z.land val (Z.lnot mask) in
    Return twos_comp.


(** bytearray([...]): every item must be in range(256). *)
Definition byte_of_int (z : Z) : option byte :=
  if (0 <=? z) && (z <? 256) then Byte.of_N (Z.to_N z) else None.

Definition int_of_byte (b : byte) : Z := Z.of_N (Byte.to_N b).

Fixpoint bytes_of_ints (l : list Z) : option (list byte) :=
  match l with
  | [] => Some []
  | z :: l' =>
      match byte_of_int z, bytes_of_ints l' with
      | Some b, Some bs => Some (b :: bs)
      | _, _ => None
      end
  end.

Definition bytearray (l : list Z) : outcome (list byte) :=
  match bytes_of_ints l with
  | Some bs => Return bs
  | None => Raise ValueError
  end.

(** int.from_bytes(bs, 'big') *)
Definition int_from_bytes_big (bs : list byte) : Z :=
  fold_left (fun acc b => acc * 256 + int_of_byte b) bs 0.

(** str(i) of an int, and sep.join(l). *)
Definition str (z : Z) : string := NilZero.string_of_int (Z.to_int z).

Definition join (sep : string) (l : list string) : string := String.concat sep l.

(** array.array('i'): a sequence of C ints.  An int that fits is stored as it
    is; for one that does not, the Python implementations differ (CPython
    raises OverflowError, MicroPython may truncate), and the model stops with
    the error so that no result is claimed there. *)
Definition fits_c_int (v : Z) : bool := (- 2 ^ 31 <=? v) && (v <? 2 ^ 31).

Definition array_append (buf : list Z) (v : Z) : outcome (list Z) :=
  if fits_c_int v then Return (buf ++ [v]) else Raise OverflowError.

(** ** The platform: pyb.I2C, pyb.delay, utime *)

Inductive i2c_mode : Type := MASTER | SLAVE.

(** An I2C object, as constructed by [I2C(bus, mode, baudrate=...)]. *)
Record I2C : Type := mkI2C { bus : Z; mode : i2c_mode; baudrate : Z }.

(** What I2C.send is given: an int (one byte on the wire) or a buffer. *)
Inductive send_data : Type :=
| DInt (z : Z)
| DBytes (bs : list byte).

(** One call to a primitive of the platform, with its answer. *)
Inductive event : Type :=
| EvI2C (h : I2C)                                  (* I2C(...) constructed *)
| EvSend (data : send_data) (addr : Z) (ok : bool) (* i2c.send; ok = no OSError *)
| EvRecv (n : nat) (addr : Z) (bs : list byte)     (* i2c.recv *)
| EvScan (slaves : list Z)                         (* i2c.scan *)
| EvIsReady (addr : Z) (r : bool)                  (* i2c.is_ready *)
| EvDelay (ms : Q)                                 (* pyb.delay *)
| EvTicks (t : Z)                                  (* utime.ticks_us *)
| EvPrint (s : string).                            (* print *)

(** The answers of the platform, by call number. *)
Record Platform : Type := mkPlatform {
  send_ok : nat -> bool;          (* does the n-th i2c.send go through? *)
  recv_byte : nat -> byte;        (* the n-th byte the device hands over *)
  scan_result : nat -> list Z;    (* what the n-th i2c.scan finds *)
  is_ready_result : nat -> bool;  (* the n-th i2c.is_ready *)
  ticks_us_result : nat -> Z;     (* the n-th reading of utime.ticks_us *)
  ticks_diff : Z -> Z -> Z        (* utime.ticks_diff *)
}.

(** The module's globals, the calls made so far, and their log (oldest
    first).  [i2c_defaults] is [i2c.__defaults__]: Python evaluates the
    default values of a function's parameters once, when the [def] statement
    runs. *)
Record World : Type := mkWorld {
  _i2c_object : option I2C;
  _i2c_default_bus : Z;
  i2c_defaults : Z * Z;
  n_send : nat;
  n_recv : nat;
  n_scan : nat;
  n_ready : nat;
  n_ticks : nat;
  log : list event
}.

(** The world once the module has been imported: lines 43-45 have run, and
    [def i2c(bus_no=_i2c_default_bus, baudrate=400000)] has read
    [_i2c_default_bus] for its default. *)
Definition module_init : World :=
  let _i2c_object := None in
  let _i2c_default_bus := 1 in
  mkWorld _i2c_object _i2c_default_bus (_i2c_default_bus, 400000) 0 0 0 0 0 [].

(** ** The monad: state and exceptions *)

Definition M (A : Type) : Type := World -> outcome A * World.

Definition ret {A} (a : A) : M A := fun w => (Return a, w).

Definition raise {A} (e : exn) : M A := fun w => (Raise e, w).

Definition out_of_fuel {A} : M A := fun w => (OutOfFuel, w).

Definition lift {A} (o : outcome A) : M A := fun w => (o, w).

Definition bind {A B} (c : M A) (k : A -> M B) : M B :=
  fun w =>
    match c w with
    | (Return a, w') => k a w'
    | (Raise e, w') => (Raise e, w')
    | (OutOfFuel, w') => (OutOfFuel, w')
    end.

Notation "x <- c ;; k" := (bind c (fun x => k))
  (at level 90, c at next level, right associativity).
Notation "c ;;; k" := (bind c (fun _ => k))
  (at level 90, right associativity).

(** try: body / except OSError: handler *)
Definition except_OSError {A} (body handler : M A) : M A :=
  fun w =>
    match body w with
    | (Raise (OSError _), w') => handler w'
    | r => r
    end.

(** The world after one more call to the platform: the event joins the log *)
Definition add_event (e : event) (w : World) : World :=
  mkWorld (_i2c_object w) (_i2c_default_bus w) (i2c_defaults w)
    (n_send w) (n_recv w) (n_scan w) (n_ready w) (n_ticks w)
    (log w ++ [e]).

(** and the calls of its kind count one more. *)
Definition count_send (w : World) : World :=
  mkWorld (_i2c_object w) (_i2c_default_bus w) (i2c_defaults w)
    (S (n_send w)) (n_recv w) (n_scan w) (n_ready w) (n_ticks w) (log w).

Definition count_recv (n : nat) (w : World) : World :=
  mkWorld (_i2c_object w) (_i2c_default_bus w) (i2c_defaults w)
    (n_send w) (n_recv w + n) (n_scan w) (n_ready w) (n_ticks w) (log w).

Definition count_scan (w : World) : World :=
  mkWorld (_i2c_object w) (_i2c_default_bus w) (i2c_defaults w)
    (n_send w) (n_recv w) (S (n_scan w)) (n_ready w) (n_ticks w) (log w).

Definition count_ready (w : World) : World :=
  mkWorld (_i2c_object w) (_i2c_default_bus w) (i2c_defaults w)
    (n_send w) (n_recv w) (n_scan w) (S (n_ready w)) (n_ticks w) (log w).

Definition count_ticks (w : World) : World :=
  mkWorld (_i2c_object w) (_i2c_default_bus w) (i2c_defaults w)
    (n_send w) (n_recv w) (n_scan w) (n_ready w) (S (n_ticks w)) (log w).

Definition emit (e : event) : M unit :=
  fun w => (Return tt, add_event e w).

Definition get {A} (f : World -> A) : M A := fun w => (Return (f w), w).

Definition set__i2c_object (o : option I2C) : M unit :=
  fun w =>
    (Return tt,
     mkWorld o (_i2c_default_bus w) (i2c_defaults w)
       (n_send w) (n_recv w) (n_scan w) (n_ready w) (n_ticks w) (log w)).

Definition set__i2c_default_bus (b : Z) : M unit :=
  fun w =>
    (Return tt,
     mkWorld (_i2c_object w) b (i2c_defaults w)
       (n_send w) (n_recv w) (n_scan w) (n_ready w) (n_ticks w) (log w)).

(** pyb.delay(ms) is taken to wait for whatever number it is given, 0.5
    included; the wait itself is only logged. *)
Definition pyb_delay (ms : Q) : M unit := emit (EvDelay ms).

Definition print (s : string) : M unit := emit (EvPrint s).

Definition I2C_new (bus_no : Z) (m : i2c_mode) (baud : Z) : M I2C :=
  let h := mkI2C bus_no m baud in
  emit (EvI2C h) ;;; ret h.

(** ** Module constants (lines 9-41) *)

Definition AX_ADDR : Z := 104.

Definition FULL_SCALE : gmap Z Z :=
  <[2 := Z.shiftl 0 3]> (<[4 := Z.shiftl 1 3]> (<[8 := Z.shiftl 2 3]>
  (<[16 := Z.shiftl 3 3]> ∅))).

Definition TOP_16BIT : Z := 65536.

Definition INT_STATUS : Z := 0x3A.
Definition ACCEL_XOUT_H : Z := 0x3B.
Definition ACCEL_XOUT_L : Z := 0x3C.
Definition ACCEL_YOUT_H : Z := 0x3D.
Definition ACCEL_YOUT_L : Z := 0x3E.
Definition ACCEL_ZOUT_H : Z := 0x3F.
Definition ACCEL_ZOUT_L : Z := 0x40.
Definition SMPLRT_DIV : Z := 0x19.
Definition WHO_AM_I : Z := 0x75.
Definition PWR_MGMT_1 : Z := 0x6b.
Definition PWR_MGMT_1_CLKSEL_MASK : Z := 0x7.
Definition PWR_MGMT_1_SLEEP_MASK : Z := 0x40.
Definition ACCEL_CONFIG : Z := 0x1c.
Definition ACCEL_CONFIG2 : Z := 0x1d.
Definition ACCEL_FS_SEL_MASK : Z := 0x18.

(** d[k] of a dict *)
Definition getitem (d : gmap Z Z) (k : Z) : outcome Z :=
  match d !! k with
  | Some v => Return v
  | None => Raise (KeyError k)
  end.

(** The delay after a failed attempt: [0.5 * 2 ** attempts], a power of two
    and so held exactly here as a rational. *)
Definition backoff (attempts : Z) : Q := ((1 # 2) * inject_Z (2 ^ attempts))%Q.

(** max_attempts when ax_send is called without it *)
Definition DEFAULT_MAX_ATTEMPTS : Z := 10.

Section Driver.

(** The platform the driver runs on, and the value line 10 gives to
    FULL_SCALE_CHOICE. *)
Variable P : Platform.
Variable FULL_SCALE_CHOICE : Z.

(** *** The methods of pyb.I2C and utime.ticks_us *)

Definition I2C_send (h : I2C) (data : send_data) (addr : Z) : M unit :=
  fun w =>
    let ok := send_ok P (n_send w) in
    let w' := add_event (EvSend data addr ok) (count_send w) in
    if ok then (Return tt, w') else (Raise (OSError "I2C"), w').

Definition I2C_recv (h : I2C) (n : nat) (addr : Z) : M (list byte) :=
  fun w =>
    let bs := map (recv_byte P) (seq (n_recv w) n) in
    (Return bs, add_event (EvRecv n addr bs) (count_recv n w)).

Definition I2C_scan (h : I2C) : M (list Z) :=
  fun w =>
    let slaves := scan_result P (n_scan w) in
    (Return slaves, add_event (EvScan slaves) (count_scan w)).

Definition I2C_is_ready (h : I2C) (addr : Z) : M bool :=
  fun w =>
    let r := is_ready_result P (n_ready w) in
    (Return r, add_event (EvIsReady addr r) (count_ready w)).

Definition utime_ticks_us : M Z :=
  fun w =>
    let t := ticks_us_result P (n_ticks w) in
    (Return t, add_event (EvTicks t) (count_ticks w)).

(** *** i2c and set_i2c_bus (lines 43-55) *)

(** [None] for an argument the caller leaves out: the parameter then takes
    its default of [i2c.__defaults__]. *)
Definition i2c (bus_no baudrate : option Z) : M I2C :=
  defaults <- get i2c_defaults ;;
  let bus_no := match bus_no with Some b => b | None => fst defaults end in
  let baudrate := match baudrate with Some b => b | None => snd defaults end in
  obj <- get _i2c_object ;;
  match obj with
  | None =>
      h <- I2C_new bus_no MASTER baudrate ;;
      set__i2c_object (Some h) ;;;
      ret h
  | Some h => ret h
  end.

Definition set_i2c_bus (bus_no : Z) : M unit :=
  set__i2c_default_bus bus_no.

(** *** ax_send (lines 63-73) *)

(** The while loop.  [fuel] bounds the iterations; [ax_send] gives it
    max_attempts, which the loop never uses up. *)
Fixpoint ax_send_loop (fuel : nat) (data : send_data)
    (max_attempts attempts : Z) : M unit :=
  if attempts <? max_attempts then
    match fuel with
    | O => out_of_fuel
    | S fuel' =>
        except_OSError
          (h <- i2c None None ;;
           I2C_send h data AX_ADDR)
          (pyb_delay (backoff attempts) ;;;
           ax_send_loop fuel' data max_attempts (attempts + 1))
    end
  else raise (OSError "Failed to send").

Definition ax_send (data : send_data) (max_attempts : Z) : M unit :=
  let attempts := 0 in
  ax_send_loop (Z.to_nat max_attempts) data max_attempts attempts.

(** *** ax_write, ax_read, ax_write_masked, ax_read_double (lines 75-104) *)

Definition ax_write (reg value : Z) : M unit :=
  data <- lift (bytearray [reg; value]) ;;
  ax_send (DBytes data) DEFAULT_MAX_ATTEMPTS.

(** With convert the result is an int, without it the bytes received. *)
Definition ax_read (reg : Z) (convert : bool)
    : M (if convert then Z else list byte) :=
  ax_send (DInt reg) DEFAULT_MAX_ATTEMPTS ;;;
  match convert return M (if convert then Z else list byte) with
  | true =>
      h <- i2c None None ;;
      bs <- I2C_recv h 1 AX_ADDR ;;
      ret (int_from_bytes_big bs)
  | false =>
      h <- i2c None None ;;
      I2C_recv h 1 AX_ADDR
  end.

Definition ax_write_masked (reg value bitmask : Z) (read_after : bool)
    : M (option Z) :=
  let masked_val := Z.land value bitmask in
  old_val <- ax_read reg true ;;
  let reg_val := Z.lor (Z.land old_val (Z.lnot bitmask)) masked_val in
  ax_write reg reg_val ;;;
  if read_after then
    v <- ax_read reg true ;;
    ret (Some v)
  else ret None.

(** With as_list the result is the list [res_h, res_l], without it one int. *)
Definition ax_read_double (addr_h addr_l : Z) (as_list : bool)
    : M (if as_list then list Z else Z) :=
  res_h <- ax_read addr_h true ;;
  res_l <- ax_read addr_l true ;;
  match as_list return M (if as_list then list Z else Z) with
  | true => ret [res_h; res_l]
  | false => ret (res_h * 256 + res_l)
  end.

(** *** ax_x, ax_y, ax_z (lines 106-116); [//] is floor division *)

Definition ax_axis (addr_h addr_l : Z) : M Z :=
  raw <- ax_read_double addr_h addr_l false ;;
  v <- lift (twos_complement raw 16) ;;
  ret (v * FULL_SCALE_CHOICE / 4).

Definition ax_x : M Z := ax_axis ACCEL_XOUT_H ACCEL_XOUT_L.
Definition ax_y : M Z := ax_axis ACCEL_YOUT_H ACCEL_YOUT_L.
Definition ax_z : M Z := ax_axis ACCEL_ZOUT_H ACCEL_ZOUT_L.

(** *** init_accelerometer (lines 118-143) *)

(** The [while True] loop that waits for the device; one unit of fuel per
    iteration. *)
Fixpoint wait_for_device (fuel : nat) (do_scan : bool) : M unit :=
  match fuel with
  | O => out_of_fuel
  | S fuel' =>
      check_ready <-
        (if do_scan then
           h <- i2c None None ;;
           slaves <- I2C_scan h ;;
           print ("I2C device addresses: " ++ join ", " (map str slaves)) ;;;
           ret (if decide (AX_ADDR ∈ slaves) then true else false)
         else ret true) ;;
      found <-
        (if check_ready : bool then
           h <- i2c None None ;;
           r <- I2C_is_ready h AX_ADDR ;;
           if r : bool then print "Ready!" ;;; ret true
           else print "AX is not ready." ;;; ret false
         else ret false) ;;
      if found : bool then ret tt
      else
        pyb_delay (inject_Z 1000) ;;;
        wait_for_device fuel' do_scan
  end.

Definition init_accelerometer (fuel : nat) (do_scan : bool) : M unit :=
  wait_for_device fuel do_scan ;;;
  ax_write_masked PWR_MGMT_1 1 PWR_MGMT_1_CLKSEL_MASK false ;;;
  full_scale <- lift (getitem FULL_SCALE FULL_SCALE_CHOICE) ;;
  ax_write_masked ACCEL_CONFIG full_scale ACCEL_FS_SEL_MASK false ;;;
  ax_write_masked PWR_MGMT_1 0 PWR_MGMT_1_SLEEP_MASK false ;;;
  ret tt.

(** *** get_data_string (lines 145-147) *)

Definition get_data_string : M string :=
  t <- utime_ticks_us ;;
  x <- ax_x ;;
  y <- ax_y ;;
  z <- ax_z ;;
  ret (str t ++ " " ++ str x ++ " " ++ str y ++ " " ++ str z)%string.

(** *** read_buf (lines 153-169) *)

(** The for loop over [range(number_of_samples)], with the locals it
    carries: the buffer, prev_t, and t, which is unassigned ([None]) until
    the body has run once. *)
Fixpoint read_buf_loop (iterations : nat) (sample_period : Z)
    (buf : list Z) (prev_t : Z) (t : option Z)
    : M (list Z * Z * option Z) :=
  match iterations with
  | O => ret (buf, prev_t, t)
  | S iterations' =>
      t <- utime_ticks_us ;;
      if ticks_diff P t prev_t <? sample_period then
        read_buf_loop iterations' sample_period buf prev_t (Some t)
      else
        let prev_t := t in
        buf <- lift (array_append buf t) ;;
        x <- ax_x ;;
        buf <- lift (array_append buf x) ;;
        y <- ax_y ;;
        buf <- lift (array_append buf y) ;;
        z <- ax_z ;;
        buf <- lift (array_append buf z) ;;
        read_buf_loop iterations' sample_period buf prev_t (Some t)
  end.

Definition read_buf (number_of_samples sample_period prev_t : Z)
    : M (list Z * Z) :=
  let buf := [] in
  r <- read_buf_loop (Z.to_nat number_of_samples) sample_period buf prev_t None ;;
  match r with
  | (buf, _, Some t) => ret (buf, t)
  | (_, _, None) => raise (UnboundLocalError "t")
  end.

End Driver.

(** ** Reading worlds and logs *)

(** The handle [i2c()] returns in a world: the one that exists, or else the
    one it constructs from its defaults. *)
Definition handle (w : World) : I2C :=
  match _i2c_object w with
  | Some h => h
  | None => mkI2C (fst (i2c_defaults w)) MASTER (snd (i2c_defaults w))
  end.

(** What [i2c()] adds to the log: the construction, if it happens. *)
Definition i2c_trace (w : World) : list event :=
  match _i2c_object w with
  | Some _ => []
  | None => [EvI2C (handle w)]
  end.

(** The world after [i2c()]. *)
Definition with_i2c (w : World) : World :=
  mkWorld (Some (handle w)) (_i2c_default_bus w) (i2c_defaults w)
    (n_send w) (n_recv w) (n_scan w) (n_ready w) (n_ticks w)
    (log w ++ i2c_trace w).

(** [k] failed attempts in a row, the first one numbered [attempts]: each a
    send that raised, followed by its delay. *)
Fixpoint retry_trace (data : send_data) (attempts : Z) (k : nat) : list event :=
  match k with
  | O => []
  | S k' =>
      EvSend data AX_ADDR false :: EvDelay (backoff attempts)
        :: retry_trace data (attempts + 1) k'
  end.

(** The world after bus traffic through [i2c()]: [ks] more sends, [kr] more
    bytes received, and the events [t]. *)
Definition after (ks kr : nat) (t : list event) (w : World) : World :=
  mkWorld (Some (handle w)) (_i2c_default_bus w) (i2c_defaults w)
    (n_send w + ks) (n_recv w + kr) (n_scan w) (n_ready w) (n_ticks w)
    (log w ++ i2c_trace w ++ t).

(** The traffic of [ax_read(reg)] that gets the byte [b] after [k] failed
    sends, and of a send of the buffer [bs] that goes through after [k]. *)
Definition read_trace (reg : Z) (k : nat) (b : byte) : list event :=
  retry_trace (DInt reg) 0 k
    ++ [EvSend (DInt reg) AX_ADDR true; EvRecv 1 AX_ADDR [b]].

Definition write_trace (bs : list byte) (k : nat) : list event :=
  retry_trace (DBytes bs) 0 k ++ [EvSend (DBytes bs) AX_ADDR true].



Fixpoint delays_of (t : list event) : list Q :=
  match t with
  | [] => []
  | EvDelay d :: t' => d :: delays_of t'
  | _ :: t' => delays_of t'
  end.

(** A register write on the wire: a buffer [reg, value] that went through. *)
Definition is_register_write (e : event) : bool :=
  match e with
  | EvSend (DBytes _) _ true => true
  | _ => false
  end.

(** No register write in a trace; and: no register write in it but of
    [data]. *)
Definition quiet (t : list event) : bool :=
  forallb (fun e => negb (is_register_write e)) t.

Definition writes_only (data : send_data) (t : list event) : Prop :=
  forall e, In e t -> is_register_write e = true -> e = EvSend data AX_ADDR true.

(** No register write in a trace but of the value [v] to the register
    [reg]. *)
Definition writes_value (reg v : Z) (t : list event) : Prop :=
  forall e, In e t -> is_register_write e = true ->
    exists bs, e = EvSend (DBytes bs) AX_ADDR true /\ map int_of_byte bs = [reg; v].

(** One captured sample, and the four entries it puts in the buffer. *)
Definition sample : Type := Z * Z * Z * Z.

Definition entries (s : sample) : list Z :=
  let '(t, x, y, z) := s in [t; x; y; z].

Definition timestamp (s : sample) : Z :=
  let '(t, _, _, _) := s in t.

(** The timestamp entries of a buffer: every fourth entry, from the first. *)
Fixpoint timestamps (buf : list Z) : list Z :=
  match buf with
  | t :: _ :: _ :: _ :: rest => t :: timestamps rest
  | _ => []
  end.

(** Each timestamp is at least [period] after the one before it, the first
    one after [prev], by the platform's ticks_diff. *)
Fixpoint spaced (P : Platform) (period prev : Z) (ts : list Z) : Prop :=
  match ts with
  | [] => True
  | t :: ts' => period <= ticks_diff P t prev /\ spaced P period t ts'
  end.

(** A sample as the loop body takes it: the clock is read, then the three
    axes in the order x, y, z. *)
Definition captured (P : Platform) (FULL_SCALE_CHOICE : Z) (s : sample) : Prop :=
  let '(t, x, y, z) := s in
  exists w0 w1 w2 w3 w4,
    utime_ticks_us P w0 = (Return t, w1) /\
    ax_x P FULL_SCALE_CHOICE w1 = (Return x, w2) /\
    ax_y P FULL_SCALE_CHOICE w2 = (Return y, w3) /\
    ax_z P FULL_SCALE_CHOICE w3 = (Return z, w4).

(** The configuration is rejected before any register write: the call ends
    in an exception, and no register write is in what it added to the log. *)
Definition rejected_before_any_write (P : Platform) (FULL_SCALE_CHOICE : Z)
    (fuel : nat) (do_scan : bool) (w : World) : Prop :=
  exists e w',
    init_accelerometer P FULL_SCALE_CHOICE fuel do_scan w = (Raise e, w') /\
    exists t, log w' = log w ++ t /\ quiet t = true.

(** ** Platforms to run the driver on *)

(** utime.ticks_diff as MicroPython has it: the difference modulo the
    period of the tick counter (2^30), read as a signed value. *)
Definition TICKS_PERIOD : Z := 2 ^ 30.

Definition upy_ticks_diff (a b : Z) : Z :=
  (a - b + TICKS_PERIOD / 2) mod TICKS_PERIOD - TICKS_PERIOD / 2.

(** A device at address 104 that is ready at once, a bus on which every
    transfer goes through, registers that read [bytes] in turn (then zero),
    and a clock that reads [clock] in turn (then zero). *)
Definition steady (bytes : list byte) (clock : list Z) : Platform :=
  mkPlatform (fun _ => true) (fun n => nth n bytes x00)
    (fun _ => [AX_ADDR]) (fun _ => true) (fun n => nth n clock 0)
    upy_ticks_diff.

(** The same, on a bus whose first [k] transfers fail. *)
Definition flaky (k : nat) (bytes : list byte) (clock : list Z) : Platform :=
  mkPlatform (fun n => negb (n <? k)%nat) (fun n => nth n bytes x00)
    (fun _ => [AX_ADDR]) (fun _ => true) (fun n => nth n clock 0)
    upy_ticks_diff.


(** A bus that works, with no device on it: every scan comes back empty and
    nothing answers at any address. *)
Definition absent : Platform :=
  mkPlatform (fun _ => true) (fun _ => x00)
    (fun _ => []) (fun _ => false) (fun _ => 0)
    upy_ticks_diff.

(** ** main.py *)

Section Main.

Variable P : Platform.
Variable FULL_SCALE_CHOICE : Z.

(** [while True: print(get_data_string())], one unit of fuel per line. *)
Fixpoint stream (fuel : nat) : M unit :=
  match fuel with
  | O => out_of_fuel
  | S fuel' =>
      line <- get_data_string P FULL_SCALE_CHOICE ;;
      print line ;;;
      stream fuel'
  end.


End Main.

(** ** Reading values and logs, continued *)

(** A 16-bit pattern read as a signed value, and the value an axis reader
    makes of the two bytes of its registers: decoded, times the full-scale
    choice, floor-divided by 4. *)
Definition signed16 (raw : Z) : Z :=
  if 32768 <=? raw then raw - 65536 else raw.

Definition axis_value (FULL_SCALE_CHOICE : Z) (high low : byte) : Z :=
  signed16 (int_of_byte high * 256 + int_of_byte low) * FULL_SCALE_CHOICE / 4.

(** The register writes of a trace, in order, and all the time it waits. *)
Definition register_writes (t : list event) : list event :=
  List.filter is_register_write t.


(** The prints of a trace, in order. *)
Fixpoint printed (t : list event) : list string :=
  match t with
  | [] => []
  | EvPrint s :: t' => s :: printed t'
  | _ :: t' => printed t'
  end.

(** Where a computation can end, from any world: with a result in [R], with
    an exception in [E], or, if [running] holds, cut short by the model's
    fuel (the Python loop still going). *)
Definition ends_in {A} (c : M A) (R : A -> Prop) (E : exn -> Prop)
    (running : Prop) : Prop :=
  forall w o w',
    c w = (o, w') ->
    match o with
    | Return a => R a
    | Raise e => E e
    | OutOfFuel => running
    end.

(** The exception of ax_send when its attempts are used up. *)
Definition send_failure (e : exn) : Prop := e = OSError "Failed to send".

(** The line number [i] of a stream that starts at clock reading [tick0]
    and received byte [byte0]. *)
Definition data_line (P : Platform) (FULL_SCALE_CHOICE : Z)
    (tick0 byte0 i : nat) : string :=
  let b := fun j => recv_byte P (byte0 + 6 * i + j) in
  (str (ticks_us_result P (tick0 + i))
     ++ " " ++ str (axis_value FULL_SCALE_CHOICE (b 0%nat) (b 1%nat))
     ++ " " ++ str (axis_value FULL_SCALE_CHOICE (b 2%nat) (b 3%nat))
     ++ " " ++ str (axis_value FULL_SCALE_CHOICE (b 4%nat) (b 5%nat)))%string.

(** ** Bit-level facts about Python's unbounded integers *)

Lemma land_lnot_split (a m : Z) : Z.land a m + Z.land a (Z.lnot m) = a.
Proof.
  rewrite Z.add_nocarry_lxor.
  - rewrite Z.lxor_lor.
    + rewrite <- Z.land_lor_distr_r, Z.lor_lnot_diag. apply Z.land_m1_r.
    + rewrite Z.land_assoc, (Z.land_comm (Z.land a m) a), Z.land_assoc,
        Z.land_diag, <- Z.land_assoc, Z.land_lnot_diag. apply Z.land_0_r.
  - rewrite Z.land_assoc, (Z.land_comm (Z.land a m) a), Z.land_assoc,
      Z.land_diag, <- Z.land_assoc, Z.land_lnot_diag. apply Z.land_0_r.
Qed.

(** Masking with a single bit keeps that bit and nothing else. *)
Lemma land_pow2 (a n : Z) :
  0 <= n -> Z.land a (2 ^ n) = if Z.testbit a n then 2 ^ n else 0.
Proof.
  intros Hn. apply Z.bits_inj'. intros i Hi.
  rewrite Z.land_spec, Z.pow2_bits_eqb by lia.
  destruct (Z.eqb_spec n i) as [->|Hne].
  - rewrite andb_true_r. destruct (Z.testbit a i) eqn:E.
    + rewrite Z.pow2_bits_true; auto.
    + now rewrite Z.bits_0.
  - rewrite andb_false_r. destruct (Z.testbit a n).
    + rewrite Z.pow2_bits_false; auto.
    + now rewrite Z.bits_0.
Qed.

(** The top bit of an n-bit pattern is set exactly from 2^(n-1) on. *)
Lemma testbit_top (a n : Z) :
  1 <= n -> 0 <= a < 2 ^ n -> Z.testbit a (n - 1) = (2 ^ (n - 1) <=? a).
Proof.
  intros Hn Ha.
  assert (Hp : 2 ^ n = 2 * 2 ^ (n - 1)).
  { replace n with (Z.succ (n - 1)) at 1 by lia. apply Z.pow_succ_r. lia. }
  assert (Hpos : 0 < 2 ^ (n - 1)) by (apply Z.pow_pos_nonneg; lia).
  destruct (Z.leb_spec (2 ^ (n - 1)) a) as [Hge|Hlt].
  - apply Z.testbit_true; [lia|].
    assert (Hq : a / 2 ^ (n - 1) = 1).
    { symmetry. apply (Z.div_unique a (2 ^ (n - 1)) 1 (a - 2 ^ (n - 1))); lia. }
    now rewrite Hq.
  - apply Z.testbit_false; [lia|].
    rewrite Z.div_small by lia. reflexivity.
Qed.

(** The decode of an n-bit pattern: subtract the full range once the sign
    bit is set. *)
Lemma twos_complement_formula (raw n : Z) :
  1 <= n -> 0 <= raw < 2 ^ n ->
  twos_complement raw n =
  Return (if 2 ^ (n - 1) <=? raw then raw - 2 ^ n else raw).
Proof.
  intros Hn Hraw. unfold twos_complement.
  destruct (Z.ltb_spec (n - 1) 0) as [?|_]; [lia|]. f_equal.
  assert (Hp : 2 ^ n = 2 * 2 ^ (n - 1)).
  { replace n with (Z.succ (n - 1)) at 1 by lia. apply Z.pow_succ_r. lia. }
  pose proof (land_lnot_split raw (2 ^ (n - 1))) as Hs.
  rewrite land_pow2 in * by lia.
  rewrite testbit_top in * by lia.
  destruct (2 ^ (n - 1) <=? raw); lia.
Qed.

(** ** The monad *)

Lemma bind_Return_inv {A B} (c : M A) (k : A -> M B) w b w' :
  bind c k w = (Return b, w') ->
  exists a w1, c w = (Return a, w1) /\ k a w1 = (Return b, w').
Proof.
  unfold bind. destruct (c w) as [[a| |] w1]; intros H; try discriminate.
  eauto.
Qed.

Lemma bind_Return {A B} (c : M A) (k : A -> M B) w a w1 :
  c w = (Return a, w1) -> bind c k w = k a w1.
Proof. unfold bind. now intros ->. Qed.

Lemma bind_Raise {A B} (c : M A) (k : A -> M B) w e w1 :
  c w = (Raise e, w1) -> bind c k w = (Raise e, w1).
Proof. unfold bind. now intros ->. Qed.

(** ** i2c *)

Lemma i2c_default (w : World) :
  i2c None None w = (Return (handle w), with_i2c w).
Proof.
  unfold i2c, handle, with_i2c, i2c_trace, handle, bind, get.
  destruct w as [[h|] db df ns nr nsc nrd nt lg]; simpl.
  - unfold ret. now rewrite app_nil_r.
  - reflexivity.
Qed.

(** Once the I2C object exists, i2c() hands it out again and touches
    nothing, whatever set_i2c_bus has stored in between. *)
Lemma set_i2c_bus_after_i2c (b : Z) (w : World) (h : I2C) :
  _i2c_object w = Some h ->
  exists w',
    (set_i2c_bus b ;;; i2c None None) w = (Return h, w') /\
    _i2c_object w' = Some h /\ log w' = log w.
Proof.
  intros Hobj. unfold set_i2c_bus, set__i2c_default_bus, i2c, bind, get.
  simpl. rewrite Hobj. unfold ret. eexists. split; [reflexivity|]. auto.
Qed.

Section DriverFacts.

Variable P : Platform.
Variable FULL_SCALE_CHOICE : Z.

(** ** ax_send: one turn of the loop *)

Lemma ax_send_loop_stop fuel data max_attempts attempts w :
  max_attempts <= attempts ->
  ax_send_loop P fuel data max_attempts attempts w
  = (Raise (OSError "Failed to send"), w).
Proof.
  intros H. destruct fuel; simpl;
    destruct (Z.ltb_spec attempts max_attempts); try lia; reflexivity.
Qed.

Lemma ax_send_loop_sent fuel data max_attempts attempts w :
  attempts < max_attempts ->
  send_ok P (n_send w) = true ->
  ax_send_loop P (S fuel) data max_attempts attempts w
  = (Return tt, add_event (EvSend data AX_ADDR true) (count_send (with_i2c w))).
Proof.
  intros Hlt Hok. simpl.
  destruct (Z.ltb_spec attempts max_attempts); [|lia].
  unfold except_OSError. rewrite (bind_Return _ _ _ _ _ (i2c_default w)).
  unfold I2C_send. simpl. now rewrite Hok.
Qed.

Lemma ax_send_loop_retry fuel data max_attempts attempts w :
  attempts < max_attempts ->
  send_ok P (n_send w) = false ->
  ax_send_loop P (S fuel) data max_attempts attempts w
  = ax_send_loop P fuel data max_attempts (attempts + 1)
      (add_event (EvDelay (backoff attempts))
         (add_event (EvSend data AX_ADDR false) (count_send (with_i2c w)))).
Proof.
  intros Hlt Hok. simpl.
  destruct (Z.ltb_spec attempts max_attempts); [|lia].
  unfold except_OSError. rewrite (bind_Return _ _ _ _ _ (i2c_default w)).
  unfold I2C_send. simpl. rewrite Hok. reflexivity.
Qed.

(** The world after a failed attempt and its delay, seen from the start. *)
Lemma after_retry data attempts k t w :
  after k 0 t
    (add_event (EvDelay (backoff attempts))
       (add_event (EvSend data AX_ADDR false) (count_send (with_i2c w))))
  = after (S k) 0
      (EvSend data AX_ADDR false :: EvDelay (backoff attempts) :: t) w.
Proof.
  unfold after, add_event, count_send, with_i2c, i2c_trace, handle.
  destruct w as [[h|] db df ns nr nsc nrd nt lg]; simpl;
    f_equal; try lia; now rewrite <- !app_assoc.
Qed.

(** ** ax_send: the transport fails k times, then goes through *)

Lemma ax_send_loop_succeeds k :
  forall fuel data max_attempts attempts w,
    (k < fuel)%nat ->
    attempts + Z.of_nat k < max_attempts ->
    (forall i, (i < k)%nat -> send_ok P (n_send w + i) = false) ->
    send_ok P (n_send w + k) = true ->
    ax_send_loop P fuel data max_attempts attempts w
    = (Return tt,
       after (S k) 0
         (retry_trace data attempts k ++ [EvSend data AX_ADDR true]) w).
Proof.
  induction k as [|k IH]; intros fuel data max_attempts attempts w Hf Hm Hfail Hok.
  - destruct fuel as [|fuel]; [lia|].
    rewrite Nat.add_0_r in Hok.
    rewrite ax_send_loop_sent by (auto; lia). f_equal.
    unfold after, add_event, count_send, with_i2c. simpl.
    f_equal; try lia. now rewrite <- app_assoc.
  - destruct fuel as [|fuel]; [lia|].
    rewrite ax_send_loop_retry.
    + rewrite IH.
      * f_equal. apply after_retry.
      * lia.
      * lia.
      * intros i Hi. simpl. specialize (Hfail (S i)).
        rewrite Nat.add_succ_r in Hfail. apply Hfail. lia.
      * simpl. now rewrite Nat.add_succ_r in Hok.
    + lia.
    + specialize (Hfail 0%nat). rewrite Nat.add_0_r in Hfail. apply Hfail. lia.
Qed.

(** ** ax_send: the transport fails on every attempt *)

Lemma ax_send_loop_exhausted k :
  forall fuel data max_attempts attempts w,
    (k < fuel)%nat ->
    attempts + Z.of_nat (S k) = max_attempts ->
    (forall i, (i <= k)%nat -> send_ok P (n_send w + i) = false) ->
    ax_send_loop P fuel data max_attempts attempts w
    = (Raise (OSError "Failed to send"),
       after (S k) 0 (retry_trace data attempts (S k)) w).
Proof.
  induction k as [|k IH]; intros fuel data max_attempts attempts w Hf Hm Hfail.
  - destruct fuel as [|fuel]; [lia|].
    rewrite ax_send_loop_retry.
    + rewrite ax_send_loop_stop by lia. f_equal.
      unfold after, add_event, count_send, with_i2c. simpl.
      f_equal; try lia. now rewrite <- !app_assoc.
    + lia.
    + specialize (Hfail 0%nat). rewrite Nat.add_0_r in Hfail. apply Hfail. lia.
  - destruct fuel as [|fuel]; [lia|].
    rewrite ax_send_loop_retry.
    + rewrite IH.
      * f_equal. apply after_retry.
      * lia.
      * lia.
      * intros i Hi. simpl. specialize (Hfail (S i)).
        rewrite Nat.add_succ_r in Hfail. apply Hfail. lia.
    + lia.
    + specialize (Hfail 0%nat). rewrite Nat.add_0_r in Hfail. apply Hfail. lia.
Qed.

(** Among the next n sends there is a first one that goes through, or none
    does. *)
Lemma first_success (f : nat -> bool) (n : nat) :
  (exists k, (k < n)%nat /\ f k = true /\ forall i, (i < k)%nat -> f i = false)
  \/ (forall i, (i < n)%nat -> f i = false).
Proof.
  induction n as [|n [(k & Hk & Hok & Hfail)|Hnone]].
  - right. intros i Hi. lia.
  - left. exists k. repeat split; auto.
  - destruct (f n) eqn:E.
    + left. exists n. repeat split; auto.
    + right. intros i Hi. destruct (Nat.eq_dec i n) as [->|]; auto.
      apply Hnone. lia.
Qed.

Lemma ax_send_succeeds data max_attempts w k :
  Z.of_nat k < max_attempts ->
  (forall i, (i < k)%nat -> send_ok P (n_send w + i) = false) ->
  send_ok P (n_send w + k) = true ->
  ax_send P data max_attempts w
  = (Return tt,
     after (S k) 0 (retry_trace data 0 k ++ [EvSend data AX_ADDR true]) w).
Proof.
  intros Hk Hfail Hok. unfold ax_send.
  apply ax_send_loop_succeeds; auto; lia.
Qed.

Lemma ax_send_exhausted data max_attempts w :
  0 < max_attempts ->
  (forall i, (i < Z.to_nat max_attempts)%nat -> send_ok P (n_send w + i) = false) ->
  ax_send P data max_attempts w
  = (Raise (OSError "Failed to send"),
     after (Z.to_nat max_attempts) 0
       (retry_trace data 0 (Z.to_nat max_attempts)) w).
Proof.
  intros Hpos Hfail. unfold ax_send.
  destruct (Z.to_nat max_attempts) as [|k] eqn:E; [lia|].
  apply ax_send_loop_exhausted; try lia.
  intros i Hi. apply Hfail. lia.
Qed.

Lemma ax_send_no_attempt data max_attempts w :
  max_attempts <= 0 ->
  ax_send P data max_attempts w = (Raise (OSError "Failed to send"), w).
Proof. intros H. unfold ax_send. now apply ax_send_loop_stop. Qed.

(** A failed send writes no register. *)
Lemma retry_trace_no_write data attempts k :
  quiet (retry_trace data attempts k) = true.
Proof.
  revert attempts. unfold quiet.
  induction k as [|k IH]; intros attempts; [reflexivity|].
  cbn [retry_trace forallb]. rewrite IH. now destruct data.
Qed.

(** Every run of ax_send is one of the two: it never runs out of fuel, and
    the only exception it raises is its own OSError. *)
Lemma ax_send_cases data max_attempts w :
  (exists k,
      Z.of_nat k < max_attempts /\
      (forall i, (i < k)%nat -> send_ok P (n_send w + i) = false) /\
      send_ok P (n_send w + k) = true /\
      ax_send P data max_attempts w
      = (Return tt,
         after (S k) 0 (retry_trace data 0 k ++ [EvSend data AX_ADDR true]) w))
  \/ (exists w',
      ax_send P data max_attempts w = (Raise (OSError "Failed to send"), w') /\
      exists t, log w' = log w ++ t /\ quiet t = true /\ n_recv w' = n_recv w).
Proof.
  destruct (first_success (fun i => send_ok P (n_send w + i)) (Z.to_nat max_attempts))
    as [(k & Hk & Hok & Hfail)|Hnone].
  - left. exists k. repeat split; auto; try lia.
    apply ax_send_succeeds; auto. lia.
  - right. destruct (Z.le_gt_cases max_attempts 0) as [Hle|Hgt].
    + exists w. split; [now apply ax_send_no_attempt|].
      exists []. now rewrite app_nil_r.
    + eexists. split; [apply ax_send_exhausted; auto; lia|].
      eexists. split; [reflexivity|]. split; [|simpl; lia].
      unfold quiet. rewrite forallb_app. apply andb_true_intro. split.
      * unfold i2c_trace. now destruct (_i2c_object w).
      * apply retry_trace_no_write.
Qed.

(** ** The trace of the retries *)





(** ** Worlds after traffic *)

Lemma with_i2c_after ks kr t w : with_i2c (after ks kr t w) = after ks kr t w.
Proof.
  unfold with_i2c, after, i2c_trace, handle. simpl. f_equal. apply app_nil_r.
Qed.

Lemma after_after ks1 kr1 t1 ks2 kr2 t2 w :
  after ks2 kr2 t2 (after ks1 kr1 t1 w)
  = after (ks1 + ks2) (kr1 + kr2) (t1 ++ t2) w.
Proof.
  unfold after, handle, i2c_trace. simpl. f_equal; try lia.
  now rewrite <- !app_assoc.
Qed.

(** ** Bytes *)

Lemma int_of_byte_range (b : byte) : 0 <= int_of_byte b < 256.
Proof.
  unfold int_of_byte. pose proof (Byte.to_N_bounded b). lia.
Qed.

Lemma byte_of_int_Some (z : Z) (b : byte) :
  byte_of_int z = Some b -> int_of_byte b = z.
Proof.
  unfold byte_of_int, int_of_byte.
  destruct (Z.leb_spec 0 z); [|discriminate].
  destruct (Z.ltb_spec z 256); [|discriminate]. simpl.
  intros Hb. apply Byte.to_of_N in Hb. lia.
Qed.

Lemma byte_of_int_total (z : Z) :
  0 <= z < 256 -> exists b, byte_of_int z = Some b.
Proof.
  intros Hz. unfold byte_of_int.
  destruct (Z.leb_spec 0 z); [|lia].
  destruct (Z.ltb_spec z 256); [|lia]. simpl.
  destruct (Byte.of_N (Z.to_N z)) as [b|] eqn:E; [eauto|].
  apply Byte.of_N_None_iff in E. lia.
Qed.

Lemma bytearray_Return (l : list Z) (bs : list byte) :
  bytearray l = Return bs -> map int_of_byte bs = l.
Proof.
  unfold bytearray. destruct (bytes_of_ints l) as [bs'|] eqn:E; [|discriminate].
  intros [= <-]. revert bs' E.
  induction l as [|z l IH]; intros bs' E; simpl in E.
  - now injection E as <-.
  - destruct (byte_of_int z) as [b|] eqn:Eb; [|discriminate].
    destruct (bytes_of_ints l) as [bs0|]; [|discriminate].
    injection E as <-. simpl. f_equal; auto using byte_of_int_Some.
Qed.

Lemma bytearray_pair (a b : Z) :
  0 <= a < 256 -> 0 <= b < 256 -> exists bs, bytearray [a; b] = Return bs.
Proof.
  intros Ha Hb. unfold bytearray. simpl.
  destruct (byte_of_int_total a Ha) as [x ->].
  destruct (byte_of_int_total b Hb) as [y ->]. eauto.
Qed.

(** ** Masked values *)

Lemma masked_bits (old value bitmask i : Z) :
  Z.testbit (Z.lor (Z.land old (Z.lnot bitmask)) (Z.land value bitmask)) i
  = if Z.testbit bitmask i then Z.testbit value i else Z.testbit old i.
Proof.
  destruct (Z.neg_nonneg_cases i) as [Hneg|Hi].
  - rewrite !Z.testbit_neg_r by lia. reflexivity.
  - rewrite Z.lor_spec, !Z.land_spec, Z.lnot_spec by lia.
    destruct (Z.testbit bitmask i), (Z.testbit old i), (Z.testbit value i);
      reflexivity.
Qed.

(** A non-negative int is below 256 exactly when it has no bit from the
    eighth on. *)
Lemma byte_high_bits (x i : Z) : 0 <= x < 256 -> 8 <= i -> Z.testbit x i = false.
Proof.
  intros Hx Hi. rewrite <- (Z.mod_small x (2 ^ 8)) by (change (2 ^ 8) with 256; lia).
  apply Z.mod_pow2_bits_high. lia.
Qed.

Lemma byte_of_high_bits (x : Z) :
  0 <= x -> (forall i, 8 <= i -> Z.testbit x i = false) -> x < 256.
Proof.
  intros Hx Hbits.
  assert (E : x = x mod 2 ^ 8).
  { apply Z.bits_inj'. intros i Hi.
    destruct (Z.lt_ge_cases i 8).
    - now rewrite Z.mod_pow2_bits_low.
    - rewrite Z.mod_pow2_bits_high by lia. now apply Hbits. }
  rewrite E. change (2 ^ 8) with 256. apply Z.mod_pos_bound. lia.
Qed.

(** With a mask of 8 bits the value to write is a byte, whatever [value]
    is. *)
Lemma masked_range (old value bitmask : Z) :
  0 <= old < 256 -> 0 <= bitmask < 256 ->
  0 <= Z.lor (Z.land old (Z.lnot bitmask)) (Z.land value bitmask) < 256.
Proof.
  intros Ho Hm.
  assert (Hnn : 0 <= Z.lor (Z.land old (Z.lnot bitmask)) (Z.land value bitmask)).
  { apply Z.lor_nonneg. split; apply Z.land_nonneg; [left|right]; lia. }
  split; [exact Hnn|].
  apply byte_of_high_bits; [exact Hnn|].
  intros i Hi. rewrite masked_bits.
  rewrite (byte_high_bits bitmask i), (byte_high_bits old i); auto.
Qed.

(** ** ax_read *)

(** What follows the send in [ax_read(reg, convert=True)], once the I2C
    object exists. *)
Lemma recv_converted ks t w :
  (h <- i2c None None ;;
   bs <- I2C_recv P h 1 AX_ADDR ;;
   ret (int_from_bytes_big bs)) (after ks 0 t w)
  = (Return (int_of_byte (recv_byte P (n_recv w))),
     after ks 1 (t ++ [EvRecv 1 AX_ADDR [recv_byte P (n_recv w)]]) w).
Proof.
  rewrite (bind_Return _ _ _ _ _ (i2c_default _)), with_i2c_after.
  unfold bind, I2C_recv, ret. simpl. rewrite Nat.add_0_r. f_equal.
  unfold after, add_event, count_recv. simpl. f_equal; try lia.
  now rewrite <- !app_assoc.
Qed.

Lemma ax_read_succeeds reg w k :
  Z.of_nat k < DEFAULT_MAX_ATTEMPTS ->
  (forall i, (i < k)%nat -> send_ok P (n_send w + i) = false) ->
  send_ok P (n_send w + k) = true ->
  ax_read P reg true w
  = (Return (int_of_byte (recv_byte P (n_recv w))),
     after (S k) 1 (read_trace reg k (recv_byte P (n_recv w))) w).
Proof.
  intros Hk Hfail Hok. unfold ax_read.
  rewrite (bind_Return _ _ _ _ _ (ax_send_succeeds _ _ _ _ Hk Hfail Hok)).
  rewrite recv_converted. unfold read_trace. now rewrite <- app_assoc.
Qed.

(** A read that returns got its byte after some k failed sends. *)
Lemma ax_read_Return reg w v w' :
  ax_read P reg true w = (Return v, w') ->
  exists k,
    Z.of_nat k < DEFAULT_MAX_ATTEMPTS /\
    (forall i, (i < k)%nat -> send_ok P (n_send w + i) = false) /\
    send_ok P (n_send w + k) = true /\
    v = int_of_byte (recv_byte P (n_recv w)) /\
    w' = after (S k) 1 (read_trace reg k (recv_byte P (n_recv w))) w.
Proof.
  intros H.
  destruct (ax_send_cases (DInt reg) DEFAULT_MAX_ATTEMPTS w)
    as [(k & Hk & Hfail & Hok & _)|(w1 & Hr & _)].
  - rewrite (ax_read_succeeds reg w k Hk Hfail Hok) in H.
    injection H as <- <-. exists k. auto.
  - unfold ax_read in H. rewrite (bind_Raise _ _ _ _ _ Hr) in H. discriminate.
Qed.

(** ** Register writes in a trace *)

Lemma quiet_app t1 t2 : quiet (t1 ++ t2) = quiet t1 && quiet t2.
Proof. apply forallb_app. Qed.

Lemma quiet_i2c_trace w : quiet (i2c_trace w) = true.
Proof. unfold i2c_trace. now destruct (_i2c_object w). Qed.

Lemma quiet_read_trace reg k b : quiet (read_trace reg k b) = true.
Proof.
  unfold read_trace. now rewrite quiet_app, retry_trace_no_write.
Qed.

Lemma quiet_writes_only data t : quiet t = true -> writes_only data t.
Proof.
  unfold quiet, writes_only. intros Hq e He Hw.
  rewrite forallb_forall in Hq. specialize (Hq e He).
  rewrite Hw in Hq. discriminate.
Qed.

Lemma writes_only_app data t1 t2 :
  writes_only data t1 -> writes_only data t2 -> writes_only data (t1 ++ t2).
Proof.
  intros H1 H2 e He. apply in_app_or in He as [He|He]; auto.
Qed.

Lemma writes_only_write_trace bs k : writes_only (DBytes bs) (write_trace bs k).
Proof.
  unfold write_trace. apply writes_only_app.
  - apply quiet_writes_only, retry_trace_no_write.
  - intros e [<-|[]] _. reflexivity.
Qed.

(** Whatever ax_send ends in, it has written no register but with its
    data. *)
Lemma ax_send_writes_only data max_attempts w o w' :
  ax_send P data max_attempts w = (o, w') ->
  exists t, log w' = log w ++ t /\ writes_only data t.
Proof.
  intros H.
  destruct (ax_send_cases data max_attempts w)
    as [(k & _ & _ & _ & Hs)|(w1 & Hr & t & Hlog & Hq & _)].
  - rewrite Hs in H. injection H as <- <-.
    eexists. split; [reflexivity|].
    apply writes_only_app; [apply quiet_writes_only, quiet_i2c_trace|].
    apply writes_only_app; [apply quiet_writes_only, retry_trace_no_write|].
    intros e [<-|[]] _. reflexivity.
  - rewrite Hr in H. injection H as <- <-.
    exists t. split; [exact Hlog|]. now apply quiet_writes_only.
Qed.

(** Whatever ax_read ends in, it has written no register. *)
Lemma ax_read_quiet reg w o w' :
  ax_read P reg true w = (o, w') ->
  exists t, log w' = log w ++ t /\ quiet t = true.
Proof.
  intros H.
  destruct (ax_send_cases (DInt reg) DEFAULT_MAX_ATTEMPTS w)
    as [(k & Hk & Hfail & Hok & _)|(w1 & Hr & t & Hlog & Hq & _)].
  - rewrite (ax_read_succeeds reg w k Hk Hfail Hok) in H.
    injection H as <- <-. eexists. split; [reflexivity|].
    now rewrite quiet_app, quiet_i2c_trace, quiet_read_trace.
  - unfold ax_read in H. rewrite (bind_Raise _ _ _ _ _ Hr) in H.
    injection H as <- <-. eauto.
Qed.

(** ** ax_read_double and ax_write_masked, when they return *)

Lemma two_reads_Return addr_h addr_l w res_h w1 res_l w' :
  ax_read P addr_h true w = (Return res_h, w1) ->
  ax_read P addr_l true w1 = (Return res_l, w') ->
  exists k1 k2,
    res_h = int_of_byte (recv_byte P (n_recv w)) /\
    res_l = int_of_byte (recv_byte P (n_recv w + 1)) /\
    w' = after (S k1 + S k2) 2
           (read_trace addr_h k1 (recv_byte P (n_recv w))
              ++ read_trace addr_l k2 (recv_byte P (n_recv w + 1))) w.
Proof.
  intros H1 H2.
  apply ax_read_Return in H1 as (k1 & _ & _ & _ & -> & ->).
  apply ax_read_Return in H2 as (k2 & _ & _ & _ & -> & ->).
  exists k1, k2. rewrite after_after. auto.
Qed.

Lemma ax_send_Return data max_attempts w w' :
  ax_send P data max_attempts w = (Return tt, w') ->
  exists k, w' = after (S k) 0 (retry_trace data 0 k ++ [EvSend data AX_ADDR true]) w.
Proof.
  intros H.
  destruct (ax_send_cases data max_attempts w)
    as [(k & _ & _ & _ & Hs)|(w1 & Hr & _)].
  - rewrite Hs in H. injection H as <-. eauto.
  - rewrite Hr in H. discriminate.
Qed.

Lemma ax_write_Return reg value w w' :
  ax_write P reg value w = (Return tt, w') ->
  exists bs k,
    bytearray [reg; value] = Return bs /\
    w' = after (S k) 0 (write_trace bs k) w.
Proof.
  intros H. unfold ax_write in H.
  apply bind_Return_inv in H as (bs & w1 & Hb & Hs).
  unfold lift in Hb. injection Hb as Hb <-.
  apply ax_send_Return in Hs as (k & ->). eauto.
Qed.

Lemma ax_write_masked_Return reg value bitmask read_after w r w' :
  ax_write_masked P reg value bitmask read_after w = (Return r, w') ->
  let b := recv_byte P (n_recv w) in
  let reg_val :=
    Z.lor (Z.land (int_of_byte b) (Z.lnot bitmask)) (Z.land value bitmask) in
  exists k1 k2 bs,
    bytearray [reg; reg_val] = Return bs /\
    let w2 := after (S k1 + S k2) 1 (read_trace reg k1 b ++ write_trace bs k2) w in
    if read_after then
      exists k3,
        r = Some (int_of_byte (recv_byte P (n_recv w + 1))) /\
        w' = after (S k3) 1 (read_trace reg k3 (recv_byte P (n_recv w + 1))) w2
    else r = None /\ w' = w2.
Proof.
  intros H b reg_val. unfold ax_write_masked in H.
  apply bind_Return_inv in H as (old & w1 & Hr & H).
  apply ax_read_Return in Hr as (k1 & _ & _ & _ & -> & ->).
  apply bind_Return_inv in H as ([] & w2 & Hw & H).
  apply ax_write_Return in Hw as (bs & k2 & Hb & ->).
  rewrite after_after in H. simpl Nat.add in H.
  exists k1, k2, bs. split; [exact Hb|]. cbv zeta.
  replace (S k1 + S k2)%nat with (S (k1 + S k2)) by lia.
  destruct read_after.
  - apply bind_Return_inv in H as (v & w3 & Hr & H).
    injection H as <- <-.
    apply ax_read_Return in Hr as (k3 & _ & _ & _ & -> & ->).
    exists k3. simpl. auto.
  - injection H as <- <-. auto.
Qed.

(** ** ax_write_masked, whatever it ends in *)

Lemma writes_value_quiet reg v t : quiet t = true -> writes_value reg v t.
Proof.
  intros Hq e He Hw. apply (quiet_writes_only (DInt 0)) in Hq.
  specialize (Hq e He Hw). subst e. discriminate.
Qed.

Lemma writes_value_app reg v t1 t2 :
  writes_value reg v t1 -> writes_value reg v t2 -> writes_value reg v (t1 ++ t2).
Proof.
  intros H1 H2 e He. apply in_app_or in He as [He|He]; auto.
Qed.

Lemma ax_write_writes_value reg v w o w' :
  ax_write P reg v w = (o, w') ->
  exists t, log w' = log w ++ t /\ writes_value reg v t.
Proof.
  unfold ax_write, bind, lift.
  destruct (bytearray [reg; v]) as [bs|e|] eqn:Eb.
  - intros H. apply ax_send_writes_only in H as (t & Hlog & Ht).
    exists t. split; [exact Hlog|].
    intros e He Hw. exists bs. split; [now apply Ht|].
    now apply bytearray_Return.
  - intros [= <- <-]. exists []. split; [now rewrite app_nil_r|].
    now apply writes_value_quiet.
  - intros [= <- <-]. exists []. split; [now rewrite app_nil_r|].
    now apply writes_value_quiet.
Qed.

Lemma ax_write_masked_writes_value reg value bitmask read_after w o w' :
  ax_write_masked P reg value bitmask read_after w = (o, w') ->
  let old := int_of_byte (recv_byte P (n_recv w)) in
  let reg_val := Z.lor (Z.land old (Z.lnot bitmask)) (Z.land value bitmask) in
  exists t, log w' = log w ++ t /\ writes_value reg reg_val t.
Proof.
  intros H old reg_val. unfold ax_write_masked, bind in H.
  destruct (ax_read P reg true w) as [o1 w1] eqn:E1.
  destruct (ax_read_quiet _ _ _ _ E1) as (t1 & L1 & Q1).
  assert (Hstop : exists t, log w1 = log w ++ t /\ writes_value reg reg_val t).
  { exists t1. split; [exact L1|]. now apply writes_value_quiet. }
  destruct o1 as [v| |]; try (injection H as <- <-; exact Hstop).
  apply ax_read_Return in E1 as (_ & _ & _ & _ & -> & _).
  fold old reg_val in H.
  destruct (ax_write P reg reg_val w1) as [o2 w2] eqn:E2.
  destruct (ax_write_writes_value _ _ _ _ _ E2) as (t2 & L2 & Q2).
  assert (Hstop2 : exists t, log w2 = log w ++ t /\ writes_value reg reg_val t).
  { exists (t1 ++ t2). split; [now rewrite L2, L1, app_assoc|].
    apply writes_value_app; [now apply writes_value_quiet|exact Q2]. }
  destruct o2 as [[]| |]; try (injection H as <- <-; exact Hstop2).
  destruct read_after; [|injection H as <- <-; exact Hstop2].
  destruct (ax_read P reg true w2) as [o3 w3] eqn:E3.
  destruct (ax_read_quiet _ _ _ _ E3) as (t3 & L3 & Q3).
  assert (Hstop3 : exists t, log w3 = log w ++ t /\ writes_value reg reg_val t).
  { exists ((t1 ++ t2) ++ t3). split; [now rewrite L3, L2, L1, !app_assoc|].
    apply writes_value_app; [|now apply writes_value_quiet].
    apply writes_value_app; [now apply writes_value_quiet|exact Q2]. }
  destruct o3; injection H as <- <-; exact Hstop3.
Qed.

(** ** On a bus where every transfer goes through *)

Lemma ax_read_steady reg w :
  (forall n, send_ok P n = true) ->
  ax_read P reg true w
  = (Return (int_of_byte (recv_byte P (n_recv w))),
     after 1 1 (read_trace reg 0 (recv_byte P (n_recv w))) w).
Proof.
  intros Hok. apply ax_read_succeeds; auto.
  - reflexivity.
  - intros i Hi. lia.
Qed.

Lemma ax_write_steady reg value bs w :
  (forall n, send_ok P n = true) ->
  bytearray [reg; value] = Return bs ->
  ax_write P reg value w = (Return tt, after 1 0 (write_trace bs 0) w).
Proof.
  intros Hok Hb. unfold ax_write, bind, lift. rewrite Hb.
  apply ax_send_succeeds; auto.
  - reflexivity.
  - intros i Hi. lia.
Qed.

Lemma ax_read_double_steady addr_h addr_l w :
  (forall n, send_ok P n = true) ->
  let high := recv_byte P (n_recv w) in
  let low := recv_byte P (n_recv w + 1) in
  let w' := after 2 2 (read_trace addr_h 0 high ++ read_trace addr_l 0 low) w in
  ax_read_double P addr_h addr_l false w
  = (Return (int_of_byte high * 256 + int_of_byte low), w') /\
  ax_read_double P addr_h addr_l true w
  = (Return [int_of_byte high; int_of_byte low], w').
Proof.
  intros Hok high low w'. unfold ax_read_double.
  rewrite !(bind_Return _ _ _ _ _ (ax_read_steady addr_h w Hok)).
  rewrite !(bind_Return _ _ _ _ _ (ax_read_steady addr_l _ Hok)).
  rewrite after_after. split; reflexivity.
Qed.

Lemma ax_write_masked_steady reg value bitmask read_after w :
  (forall n, send_ok P n = true) ->
  0 <= reg < 256 -> 0 <= bitmask < 256 ->
  exists r w', ax_write_masked P reg value bitmask read_after w = (Return r, w').
Proof.
  intros Hok Hreg Hmask. unfold ax_write_masked.
  rewrite (bind_Return _ _ _ _ _ (ax_read_steady reg w Hok)).
  destruct (bytearray_pair reg
              (Z.lor (Z.land (int_of_byte (recv_byte P (n_recv w))) (Z.lnot bitmask))
                 (Z.land value bitmask)) Hreg) as [bs Hb].
  { apply masked_range; auto using int_of_byte_range. }
  rewrite (bind_Return _ _ _ _ _ (ax_write_steady _ _ bs _ Hok Hb)).
  destruct read_after.
  - rewrite (bind_Return _ _ _ _ _ (ax_read_steady reg _ Hok)). unfold ret. eauto.
  - unfold ret. eauto.
Qed.

(** ** read_buf: the loop *)

Lemma array_append_Return buf v w b w' :
  lift (array_append buf v) w = (Return b, w') -> b = buf ++ [v] /\ w' = w.
Proof.
  unfold lift, array_append. destruct (fits_c_int v); intros [= <- <-]; auto.
Qed.

Lemma last_cons_default {A} (l : list A) (a d : A) :
  List.last (a :: l) d = List.last l a.
Proof.
  revert a d. induction l as [|b l IH]; intros a d; [reflexivity|].
  change (List.last (a :: b :: l) d) with (List.last (b :: l) d).
  now rewrite (IH b d), (IH b a).
Qed.

Lemma timestamps_entries (samples : list sample) :
  timestamps (flat_map entries samples) = map timestamp samples.
Proof.
  induction samples as [|[[[t x] y] z] l IH]; [reflexivity|].
  simpl. now rewrite IH.
Qed.


(** The loop invariant.  Whatever the loop is entered with, the buffer it
    leaves is the one it found followed by four entries per captured sample;
    every sample was taken at least [sample_period] after the one before
    (after prev_t, for the first); prev_t ends as the last captured
    timestamp. *)
Lemma read_buf_loop_Return iterations :
  forall sample_period buf prev_t t w buf' prev_t' t' w',
    read_buf_loop P FULL_SCALE_CHOICE iterations sample_period buf prev_t t w
    = (Return (buf', prev_t', t'), w') ->
    exists samples,
      buf' = buf ++ flat_map entries samples /\
      (length samples <= iterations)%nat /\
      Forall (captured P FULL_SCALE_CHOICE) samples /\
      spaced P sample_period prev_t (map timestamp samples) /\
      prev_t' = List.last (map timestamp samples) prev_t.
Proof.
  induction iterations as [|n IH];
    intros sample_period buf prev_t t w buf' prev_t' t' w' H.
  - injection H as <- <- <- <-. exists []. simpl.
    rewrite app_nil_r. repeat split; auto.
  - cbn [read_buf_loop] in H.
    apply bind_Return_inv in H as (t1 & w1 & Ht & H).
    destruct (Z.ltb_spec (ticks_diff P t1 prev_t) sample_period) as [Hearly|Hdue].
    + apply IH in H as (samples & -> & Hlen & Hcap & Hsp & ->).
      exists samples. repeat split; auto.
    + apply bind_Return_inv in H as (b1 & w1' & Hb1 & H).
      apply array_append_Return in Hb1 as [-> ->].
      apply bind_Return_inv in H as (x & w2 & Hx & H).
      apply bind_Return_inv in H as (b2 & w2' & Hb2 & H).
      apply array_append_Return in Hb2 as [-> ->].
      apply bind_Return_inv in H as (y & w3 & Hy & H).
      apply bind_Return_inv in H as (b3 & w3' & Hb3 & H).
      apply array_append_Return in Hb3 as [-> ->].
      apply bind_Return_inv in H as (z & w4 & Hz & H).
      apply bind_Return_inv in H as (b4 & w4' & Hb4 & H).
      apply array_append_Return in Hb4 as [-> ->].
      apply IH in H as (samples & -> & Hlen & Hcap & Hsp & ->).
      exists ((t1, x, y, z) :: samples). repeat split.
      * simpl. now rewrite <- !app_assoc.
      * simpl. lia.
      * constructor; [|exact Hcap]. exists w, w1, w2, w3, w4. auto.
      * simpl. lia.
      * exact Hsp.
      * cbn [map timestamp]. now rewrite last_cons_default.
Qed.

Lemma read_buf_Return number_of_samples sample_period prev_t w buf t w' :
  read_buf P FULL_SCALE_CHOICE number_of_samples sample_period prev_t w
  = (Return (buf, t), w') ->
  1 <= number_of_samples /\
  exists samples,
    buf = flat_map entries samples /\
    (length samples <= Z.to_nat number_of_samples)%nat /\
    Forall (captured P FULL_SCALE_CHOICE) samples /\
    spaced P sample_period prev_t (map timestamp samples).
Proof.
  intros H. unfold read_buf in H.
  apply bind_Return_inv in H as ([[b p] [t1|]] & w1 & Hl & H); [|discriminate].
  injection H as <- <- <-. split.
  - destruct (Z.to_nat number_of_samples) eqn:E; [discriminate|lia].
  - apply read_buf_loop_Return in Hl as (samples & -> & Hlen & Hcap & Hsp & _).
    exists samples. auto.
Qed.

(** ** FULL_SCALE *)

Lemma FULL_SCALE_missing (c : Z) :
  c <> 2 -> c <> 4 -> c <> 8 -> c <> 16 -> FULL_SCALE !! c = None.
Proof.
  intros H2 H4 H8 H16. unfold FULL_SCALE.
  rewrite !lookup_insert_ne by congruence. apply lookup_empty.
Qed.

Lemma FULL_SCALE_present (c : Z) :
  c = 2 \/ c = 4 \/ c = 8 \/ c = 16 ->
  FULL_SCALE !! c = Some (Z.shiftl (Z.log2 c - 1) 3).
Proof.
  intros [-> | [-> | [-> | ->]]]; reflexivity.
Qed.

(** ** init_accelerometer: a device that answers the first poll *)

Lemma wait_for_device_found fuel do_scan w :
  AX_ADDR ∈ scan_result P (n_scan w) ->
  is_ready_result P (n_ready w) = true ->
  exists w1,
    wait_for_device P (S fuel) do_scan w = (Return tt, w1) /\
    exists t, log w1 = log w ++ t /\ quiet t = true.
Proof.
  intros Hin Hready. cbn [wait_for_device]. destruct do_scan.
  - unfold bind, ret, I2C_scan, I2C_is_ready, print, emit.
    rewrite i2c_default.
    destruct (decide (AX_ADDR ∈ scan_result P (n_scan (with_i2c w)))) as [_|Hn];
      [|contradiction].
    cbv beta iota. rewrite i2c_default.
    cbn [n_ready add_event count_scan with_i2c]. rewrite Hready.
    eexists. split; [reflexivity|].
    cbn [log add_event count_ready count_scan with_i2c i2c_trace _i2c_object].
    rewrite <- !app_assoc. eexists. split; [reflexivity|].
    rewrite !quiet_app, quiet_i2c_trace. reflexivity.
  - unfold bind, ret, I2C_is_ready, print, emit.
    cbv beta iota. rewrite i2c_default.
    cbn [n_ready with_i2c]. rewrite Hready. eexists. split; [reflexivity|].
    cbn [log add_event count_ready with_i2c].
    rewrite <- !app_assoc. eexists. split; [reflexivity|].
    rewrite !quiet_app, quiet_i2c_trace. reflexivity.
Qed.

Lemma not_quiet e t : In e t -> is_register_write e = true -> quiet t = false.
Proof.
  intros He Hw. destruct (quiet t) eqn:Hq; [|reflexivity].
  apply (quiet_writes_only (DInt 0)) in Hq. specialize (Hq e He Hw).
  subst e. discriminate.
Qed.

End DriverFacts.


(** C8. ax_read_double, from any world, when the device answers the two
    reads with the bytes high and low: if it returns, the combined form is
    high * 256 + low and the list form is [high, low]; what it added to the
    log is the read of addr_h (its send, after any failed attempts, and the
    byte high received) and only then the read of addr_l.  On a bus where
    every transfer goes through it does return. *)
Theorem ax_read_double_high_low (P : Platform) (addr_h addr_l : Z) (w : World)
    (high low : byte) :
  recv_byte P (n_recv w) = high ->
  recv_byte P (n_recv w + 1) = low ->
  (forall v w',
      ax_read_double P addr_h addr_l false w = (Return v, w') ->
      v = int_of_byte high * 256 + int_of_byte low /\
      exists k1 k2,
        log w' = log w ++ i2c_trace w
                   ++ read_trace addr_h k1 high ++ read_trace addr_l k2 low) /\
  (forall v w',
      ax_read_double P addr_h addr_l true w = (Return v, w') ->
      v = [int_of_byte high; int_of_byte low] /\
      exists k1 k2,
        log w' = log w ++ i2c_trace w
                   ++ read_trace addr_h k1 high ++ read_trace addr_l k2 low) /\
  ((forall n, send_ok P n = true) ->
   exists w',
     ax_read_double P addr_h addr_l false w
     = (Return (int_of_byte high * 256 + int_of_byte low), w') /\
     ax_read_double P addr_h addr_l true w
     = (Return [int_of_byte high; int_of_byte low], w')).
Proof.
  intros Hh Hl. split; [|split].
  - intros v w' H. unfold ax_read_double in H.
    apply bind_Return_inv in H as (res_h & w1 & H1 & H).
    apply bind_Return_inv in H as (res_l & w2 & H2 & H).
    injection H as <- <-.
    destruct (two_reads_Return P _ _ _ _ _ _ _ H1 H2) as (k1 & k2 & -> & -> & ->).
    rewrite Hh, Hl. split; [reflexivity|]. exists k1, k2. reflexivity.
  - intros v w' H. unfold ax_read_double in H.
    apply bind_Return_inv in H as (res_h & w1 & H1 & H).
    apply bind_Return_inv in H as (res_l & w2 & H2 & H).
    injection H as <- <-.
    destruct (two_reads_Return P _ _ _ _ _ _ _ H1 H2) as (k1 & k2 & -> & -> & ->).
    rewrite Hh, Hl. split; [reflexivity|]. exists k1, k2. reflexivity.
  - intros Hok. destruct (ax_read_double_steady P addr_h addr_l w Hok) as [H1 H2].
    rewrite Hh, Hl in H1, H2. eauto.
Qed.

(** C2. ax_write_masked, from any world, when the device answers the read
    of reg with the byte old.  The value it computes is
    (old & ~bitmask) | (value & bitmask): bit by bit, the bit of value where
    the mask has a bit and the bit of old elsewhere.  If it returns, the log
    shows the read of reg and then one write, of the buffer [reg, that
    value] (followed by the read back, when read_after is set).  Whatever it
    ends in, no other register write has gone out.  With reg and bitmask of
    8 bits, on a bus where every transfer goes through, it does return. *)
Theorem ax_write_masked_keeps_unmasked_bits (P : Platform)
    (reg value bitmask : Z) (read_after : bool) (w : World) (old : Z) :
  int_of_byte (recv_byte P (n_recv w)) = old ->
  let reg_val := Z.lor (Z.land old (Z.lnot bitmask)) (Z.land value bitmask) in
  (forall i,
      Z.testbit reg_val i
      = if Z.testbit bitmask i then Z.testbit value i else Z.testbit old i) /\
  (forall r w',
      ax_write_masked P reg value bitmask read_after w = (Return r, w') ->
      exists k1 k2 bs tail,
        map int_of_byte bs = [reg; reg_val] /\
        log w' = log w ++ i2c_trace w
                   ++ read_trace reg k1 (recv_byte P (n_recv w))
                   ++ write_trace bs k2 ++ tail /\
        quiet tail = true /\
        (if read_after
         then r = Some (int_of_byte (recv_byte P (n_recv w + 1)))
         else r = None /\ tail = [])) /\
  (forall o w',
      ax_write_masked P reg value bitmask read_after w = (o, w') ->
      exists t, log w' = log w ++ t /\ writes_value reg reg_val t) /\
  ((forall n, send_ok P n = true) ->
   0 <= reg < 256 -> 0 <= bitmask < 256 ->
   exists r w', ax_write_masked P reg value bitmask read_after w = (Return r, w')).
Proof.
  intros Hold reg_val. split; [|split; [|split]].
  - intros i. apply masked_bits.
  - intros r w' H.
    apply ax_write_masked_Return in H as (k1 & k2 & bs & Hb & H).
    rewrite Hold in Hb. fold reg_val in Hb.
    apply bytearray_Return in Hb. cbv zeta in H.
    destruct read_after.
    + destruct H as (k3 & -> & ->). rewrite after_after.
      exists k1, k2, bs, (read_trace reg k3 (recv_byte P (n_recv w + 1))).
      repeat split; auto.
      * simpl. now rewrite <- !app_assoc.
      * apply quiet_read_trace.
    + destruct H as (-> & ->).
      exists k1, k2, bs, []. repeat split; auto.
      simpl. now rewrite app_nil_r.
  - intros o w' H. apply ax_write_masked_writes_value in H.
    cbv zeta in H. rewrite Hold in H. exact H.
  - intros Hok Hreg Hmask. now apply ax_write_masked_steady.
Qed.

(** C3. twos_complement at width 16 decodes 0x0000 to 0, 0x7FFF to 32767,
    0x8000 to -32768 and 0xFFFF to -1; on every raw in [0, 65535] it is
    raw - 65536 from 32768 on and raw below; and it is a bijection from
    [0, 65535] onto [-32768, 32767]: it lands there, it is injective, and
    every value there is the decode of some raw. *)
Theorem twos_complement_16 :
  twos_complement 0x0000 16 = Return 0 /\
  twos_complement 0x7FFF 16 = Return 32767 /\
  twos_complement 0x8000 16 = Return (-32768) /\
  twos_complement 0xFFFF 16 = Return (-1) /\
  (forall raw, 0 <= raw <= 65535 ->
     twos_complement raw 16 = Return (if 32768 <=? raw then raw - 65536 else raw)) /\
  (forall raw, 0 <= raw <= 65535 ->
     exists s, twos_complement raw 16 = Return s /\ -32768 <= s <= 32767) /\
  (forall raw1 raw2, 0 <= raw1 <= 65535 -> 0 <= raw2 <= 65535 ->
     twos_complement raw1 16 = twos_complement raw2 16 -> raw1 = raw2) /\
  (forall s, -32768 <= s <= 32767 ->
     exists raw, 0 <= raw <= 65535 /\ twos_complement raw 16 = Return s).
Proof.
  assert (F : forall raw, 0 <= raw <= 65535 ->
            twos_complement raw 16
            = Return (if 32768 <=? raw then raw - 65536 else raw)).
  { intros raw H. rewrite (twos_complement_formula raw 16) by (simpl; lia).
    reflexivity. }
  repeat split; try reflexivity.
  - exact F.
  - intros raw H. rewrite (F raw H). eexists. split; [reflexivity|].
    destruct (Z.leb_spec 32768 raw); lia.
  - intros raw1 raw2 H1 H2. rewrite (F raw1 H1), (F raw2 H2). intros [= E].
    destruct (Z.leb_spec 32768 raw1), (Z.leb_spec 32768 raw2); lia.
  - intros s H. destruct (Z.ltb_spec s 0).
    + exists (s + 65536). split; [lia|]. rewrite F by lia.
      destruct (Z.leb_spec 32768 (s + 65536)); [f_equal|]; lia.
    + exists s. split; [lia|]. rewrite F by lia.
      destruct (Z.leb_spec 32768 s); [lia|reflexivity].
Qed.

(** C5. In every batch read_buf returns, each captured timestamp is at least
    sample_period after the one captured before it, and the first one after
    the prev_t argument, by the platform's wraparound-safe ticks_diff. *)
Theorem read_buf_spacing (P : Platform) (FULL_SCALE_CHOICE : Z)
    (number_of_samples sample_period prev_t : Z) (w : World)
    (buf : list Z) (t : Z) (w' : World) :
  read_buf P FULL_SCALE_CHOICE number_of_samples sample_period prev_t w
  = (Return (buf, t), w') ->
  spaced P sample_period prev_t (timestamps buf).
Proof.
  intros H. apply read_buf_Return in H as (_ & samples & -> & _ & _ & Hsp).
  now rewrite timestamps_entries.
Qed.


(** C10. With number_of_samples = 0 the loop body never runs, t is never
    assigned, and [return buf, t] raises: read_buf leaves the world as it
    found it and returns no (buffer, last_timestamp) pair. *)
Theorem read_buf_zero_samples (P : Platform) (FULL_SCALE_CHOICE : Z)
    (sample_period prev_t : Z) (w : World) :
  read_buf P FULL_SCALE_CHOICE 0 sample_period prev_t w
  = (Raise (UnboundLocalError "t"), w) /\
  (forall r w',
      read_buf P FULL_SCALE_CHOICE 0 sample_period prev_t w <> (Return r, w')).
Proof.
  split; [reflexivity|]. intros r w' H. discriminate.
Qed.

(** C4. Asked for 3 samples at least 1000 apart, with a clock that reads
    500, 1200 and 1500, read_buf returns a buffer of one quadruple, not
    three, and 1500 as the last timestamp, which is no timestamp of the
    buffer: an iteration that comes too early is skipped, not waited out. *)
Theorem read_buf_skips_early_iterations :
  exists w',
    read_buf (steady [] [500; 1200; 1500]) 2 3 1000 0 module_init
    = (Return ([1200; 0; 0; 0], 1500), w').
Proof. eexists. vm_compute. reflexivity. Qed.

(** C6, as stated, fails: with FULL_SCALE_CHOICE = 3, a device that is ready
    at once and a bus that works, init_accelerometer has written the clock
    selection to PWR_MGMT_1 by the time it raises KeyError(3). *)
Lemma init_accelerometer_writes_before_rejecting :
  FULL_SCALE !! 3 = None /\
  fst (init_accelerometer (steady [] []) 3 1 true module_init) = Raise (KeyError 3) /\
  ~ rejected_before_any_write (steady [] []) 3 1 true module_init.
Proof.
  split; [reflexivity|]. split; [vm_compute; reflexivity|].
  intros (e & w' & H & t & Hlog & Hq).
  vm_compute in H. injection H as <- <-.
  simpl in Hlog. subst t. vm_compute in Hq. discriminate.
Qed.

(** C6, amended.  With FULL_SCALE_CHOICE not one of 2, 4, 8, 16,
    init_accelerometer never completes; once the device is found and the
    masked write of the clock selection to PWR_MGMT_1 has returned, it
    raises KeyError(FULL_SCALE_CHOICE) from the lookup in FULL_SCALE, in the
    world that write left: the PWR_MGMT_1 write is on the wire, nothing has
    been written to ACCEL_CONFIG, and the sleep bit has not been cleared. *)
Theorem init_accelerometer_invalid_full_scale (P : Platform)
    (FULL_SCALE_CHOICE : Z) (fuel : nat) (do_scan : bool) (w : World) :
  FULL_SCALE_CHOICE <> 2 -> FULL_SCALE_CHOICE <> 4 ->
  FULL_SCALE_CHOICE <> 8 -> FULL_SCALE_CHOICE <> 16 ->
  (forall o w',
      init_accelerometer P FULL_SCALE_CHOICE fuel do_scan w = (o, w') ->
      o <> Return tt) /\
  (forall w1 r w2,
      wait_for_device P fuel do_scan w = (Return tt, w1) ->
      ax_write_masked P PWR_MGMT_1 1 PWR_MGMT_1_CLKSEL_MASK false w1
      = (Return r, w2) ->
      init_accelerometer P FULL_SCALE_CHOICE fuel do_scan w
      = (Raise (KeyError FULL_SCALE_CHOICE), w2) /\
      exists t bs,
        log w2 = log w1 ++ t /\
        In (EvSend (DBytes bs) AX_ADDR true) t /\
        map int_of_byte bs
        = [PWR_MGMT_1;
           Z.lor (Z.land (int_of_byte (recv_byte P (n_recv w1)))
                    (Z.lnot PWR_MGMT_1_CLKSEL_MASK))
             (Z.land 1 PWR_MGMT_1_CLKSEL_MASK)]) /\
  ((1 <= fuel)%nat ->
   (forall n, send_ok P n = true) ->
   AX_ADDR ∈ scan_result P (n_scan w) ->
   is_ready_result P (n_ready w) = true ->
   exists w2 t,
     init_accelerometer P FULL_SCALE_CHOICE fuel do_scan w
     = (Raise (KeyError FULL_SCALE_CHOICE), w2) /\
     log w2 = log w ++ t /\ quiet t = false).
Proof.
  intros H2 H4 H8 H16.
  pose proof (FULL_SCALE_missing _ H2 H4 H8 H16) as Hmiss.
  assert (Hfound : forall w1 r w2,
      wait_for_device P fuel do_scan w = (Return tt, w1) ->
      ax_write_masked P PWR_MGMT_1 1 PWR_MGMT_1_CLKSEL_MASK false w1
      = (Return r, w2) ->
      init_accelerometer P FULL_SCALE_CHOICE fuel do_scan w
      = (Raise (KeyError FULL_SCALE_CHOICE), w2) /\
      exists t bs,
        log w2 = log w1 ++ t /\
        In (EvSend (DBytes bs) AX_ADDR true) t /\
        map int_of_byte bs
        = [PWR_MGMT_1;
           Z.lor (Z.land (int_of_byte (recv_byte P (n_recv w1)))
                    (Z.lnot PWR_MGMT_1_CLKSEL_MASK))
             (Z.land 1 PWR_MGMT_1_CLKSEL_MASK)]);
    [|split; [|split; [exact Hfound|]]].
  3: { intros Hfuel Hok Hscan Hready.
       destruct fuel as [|fuel']; [lia|].
       destruct (wait_for_device_found P fuel' do_scan w Hscan Hready)
         as (w1 & Hwait & t1 & L1 & _).
       destruct (ax_write_masked_steady P PWR_MGMT_1 1 PWR_MGMT_1_CLKSEL_MASK
                   false w1 Hok) as (r & w2 & Hwrite);
         [unfold PWR_MGMT_1; lia|unfold PWR_MGMT_1_CLKSEL_MASK; lia|].
       destruct (Hfound w1 r w2 Hwait Hwrite) as (Hinit & t2 & bs & L2 & Hin & _).
       exists w2, (t1 ++ t2). split; [exact Hinit|].
       split; [now rewrite L2, L1, app_assoc|].
       apply (not_quiet (EvSend (DBytes bs) AX_ADDR true)); [|reflexivity].
       apply in_or_app. now right. }
  - intros w1 r w2 Hwait Hwrite. split.
    + unfold init_accelerometer.
      rewrite (bind_Return _ _ _ _ _ Hwait), (bind_Return _ _ _ _ _ Hwrite).
      unfold bind, lift, getitem. now rewrite Hmiss.
    + apply ax_write_masked_Return in Hwrite as (k1 & k2 & bs & Hb & _ & ->).
      apply bytearray_Return in Hb.
      eexists. exists bs. split; [reflexivity|]. split; [|exact Hb].
      unfold write_trace. rewrite !in_app_iff. right. right. right. now left.
  - intros o w' H. unfold init_accelerometer, bind, lift, getitem in H.
    rewrite Hmiss in H.
    destruct (wait_for_device P fuel do_scan w) as [[[]| |] w1];
      try (injection H as <- <-; discriminate).
    destruct (ax_write_masked P PWR_MGMT_1 1 PWR_MGMT_1_CLKSEL_MASK false w1)
      as [[r| |] w2]; injection H as <- <-; discriminate.
Qed.

(** C7. set_i2c_bus(b) before the first i2c(): the handle is constructed on
    bus 1, whatever b is.  The default of i2c's bus_no was read from
    _i2c_default_bus when the def statement ran; set_i2c_bus changes the
    global, which i2c never reads again. *)
Theorem set_i2c_bus_before_first_i2c (b : Z) :
  (set_i2c_bus b ;;; i2c None None) module_init
  = (Return (mkI2C 1 MASTER 400000),
     mkWorld (Some (mkI2C 1 MASTER 400000)) b (1, 400000) 0 0 0 0 0
       [EvI2C (mkI2C 1 MASTER 400000)]).
Proof. reflexivity. Qed.

(** ** The theorems at work on concrete platforms *)


(** A PWR_MGMT_1 that reads 0x12 is written back as 0x11 when value 1 goes
    under the mask 0x7. *)
Lemma ax_write_masked_keeps_unmasked_bits_witness :
  exists t,
    log (snd (ax_write_masked (steady [x12] []) PWR_MGMT_1 1
                PWR_MGMT_1_CLKSEL_MASK false module_init))
    = log module_init ++ t /\
    writes_value PWR_MGMT_1 0x11 t.
Proof.
  destruct (ax_write_masked_keeps_unmasked_bits (steady [x12] []) PWR_MGMT_1 1
              PWR_MGMT_1_CLKSEL_MASK false module_init 0x12 eq_refl)
    as (_ & _ & H & _).
  apply (H (fst (ax_write_masked (steady [x12] []) PWR_MGMT_1 1
                   PWR_MGMT_1_CLKSEL_MASK false module_init))).
  apply surjective_pairing.
Defined.

(** 40000 decodes to 40000 - 65536. *)
Lemma twos_complement_16_witness : twos_complement 40000 16 = Return (-25536).
Proof.
  destruct twos_complement_16 as (_ & _ & _ & _ & H & _).
  apply (H 40000). lia.
Defined.

(** A clock that reads 1000, 2500 and 3000: the third reading comes 500
    after the second sample and is passed over. *)
Lemma read_buf_spacing_witness :
  spaced (steady [] [1000; 2500; 3000]) 1000 0
    (timestamps [1000; 0; 0; 0; 2500; 0; 0; 0]).
Proof.
  eapply (read_buf_spacing (steady [] [1000; 2500; 3000]) 2 3 1000 0
            module_init [1000; 0; 0; 0; 2500; 0; 0; 0] 3000).
  vm_compute. reflexivity.
Defined.

(** The device found at the first poll, FULL_SCALE_CHOICE = 3. *)
Lemma init_accelerometer_invalid_full_scale_witness :
  exists w2 t,
    init_accelerometer (steady [] []) 3 1 true module_init
    = (Raise (KeyError 3), w2) /\
    log w2 = log module_init ++ t /\ quiet t = false.
Proof.
  destruct (init_accelerometer_invalid_full_scale (steady [] []) 3 1 true
              module_init) as (_ & _ & H); try lia.
  apply H.
  - lia.
  - intros n. reflexivity.
  - vm_compute. left.
  - reflexivity.
Defined.

(** Registers that read 0x12 and 0x34. *)
Lemma ax_read_double_high_low_witness :
  exists w',
    ax_read_double (steady [x12; x34] []) ACCEL_XOUT_H ACCEL_XOUT_L false
      module_init
    = (Return 0x1234, w') /\
    ax_read_double (steady [x12; x34] []) ACCEL_XOUT_H ACCEL_XOUT_L true
      module_init
    = (Return [0x12; 0x34], w').
Proof.
  destruct (ax_read_double_high_low (steady [x12; x34] []) ACCEL_XOUT_H
              ACCEL_XOUT_L module_init x12 x34 eq_refl eq_refl) as (_ & _ & H).
  apply H. intros n. reflexivity.
Defined.


(** * Further properties of the driver *)

(** ** Helper facts *)

Lemma delays_of_app (t1 t2 : list event) :
  delays_of (t1 ++ t2) = delays_of t1 ++ delays_of t2.
Proof.
  induction t1 as [|e t1 IH]; [reflexivity|].
  destruct e; simpl; now rewrite IH.
Qed.

Lemma delays_of_i2c_trace (w : World) : delays_of (i2c_trace w) = [].
Proof. unfold i2c_trace. now destruct (_i2c_object w). Qed.



(** ** i2c and set_i2c_bus *)

(** X1. i2c() constructs the I2C object at most once.  Whatever arguments
    the first call is given, it returns a handle and stores it; any later
    call, with any arguments, returns that same handle and changes nothing:
    a bus number or baud rate passed once the handle exists is ignored. *)
Theorem i2c_constructs_once (bus_no baudrate bus_no' baudrate' : option Z)
    (w : World) :
  exists h w1,
    i2c bus_no baudrate w = (Return h, w1) /\
    _i2c_object w1 = Some h /\
    log w1 = log w ++ match _i2c_object w with
                      | None => [EvI2C h]
                      | Some _ => []
                      end /\
    i2c bus_no' baudrate' w1 = (Return h, w1).
Proof.
  unfold i2c, bind, get, I2C_new, emit, set__i2c_object, ret.
  destruct w as [[h|] db df ns nr nsc nrd nt lg]; simpl.
  - exists h. eexists. split; [reflexivity|]. simpl.
    rewrite app_nil_r. auto.
  - eexists. eexists. split; [reflexivity|]. simpl. auto.
Qed.

(** X2. set_i2c_bus changes nothing that i2c() does: called right before
    i2c(), in any world and whatever arguments i2c is given, the handle
    returned, the stored object and the log are those of i2c() alone; only
    the global _i2c_default_bus differs. *)
Theorem set_i2c_bus_changes_no_handle (b : Z) (bus_no baudrate : option Z)
    (w : World) :
  exists h w1 w2,
    i2c bus_no baudrate w = (Return h, w1) /\
    (set_i2c_bus b ;;; i2c bus_no baudrate) w = (Return h, w2) /\
    _i2c_object w2 = _i2c_object w1 /\
    log w2 = log w1 /\
    i2c_defaults w2 = i2c_defaults w1 /\
    _i2c_default_bus w2 = b.
Proof.
  unfold set_i2c_bus, set__i2c_default_bus, i2c, bind, get, I2C_new, emit,
    set__i2c_object, ret.
  destruct w as [[h|] db df ns nr nsc nrd nt lg]; simpl;
    eexists; eexists; eexists; repeat split.
Qed.

(** ** twos_complement at any width *)

(** X3. At any width n >= 1, twos_complement maps an n-bit pattern to the
    signed value it stands for: the result lies in [-2^(n-1), 2^(n-1)), is
    congruent to the pattern modulo 2^n (so the pattern is recovered as
    result mod 2^n), and is negative exactly when the top bit is set. *)
Theorem twos_complement_width (raw n : Z) :
  1 <= n -> 0 <= raw < 2 ^ n ->
  exists s,
    twos_complement raw n = Return s /\
    - 2 ^ (n - 1) <= s < 2 ^ (n - 1) /\
    s mod 2 ^ n = raw /\
    (s < 0 <-> 2 ^ (n - 1) <= raw).
Proof.
  intros Hn Hraw. rewrite twos_complement_formula by assumption.
  assert (Hp : 2 ^ n = 2 * 2 ^ (n - 1)).
  { replace n with (Z.succ (n - 1)) at 1 by lia. apply Z.pow_succ_r. lia. }
  eexists. split; [reflexivity|].
  destruct (Z.leb_spec (2 ^ (n - 1)) raw) as [Hge|Hlt].
  - split; [lia|]. split; [|lia].
    replace (raw - 2 ^ n) with (raw + (-1) * 2 ^ n) by ring.
    rewrite Z.mod_add by lia. apply Z.mod_small. lia.
  - split; [lia|]. split; [|lia]. apply Z.mod_small. lia.
Qed.

Lemma twos_complement_width_witness :
  exists s,
    twos_complement 200 8 = Return s /\
    - 2 ^ (8 - 1) <= s < 2 ^ (8 - 1) /\
    s mod 2 ^ 8 = 200 /\
    (s < 0 <-> 2 ^ (8 - 1) <= 200).
Proof. apply (twos_complement_width 200 8); simpl; lia. Defined.

(** X4. twos_complement does not reduce its argument to the width: for any
    int val and any width n >= 1 the result is val itself, less 2^n when bit
    n-1 of val is set, so bits above the width pass through unchanged.  For
    a width below 1 it raises TypeError (the mask 2 ** (n-1) is then a
    float). *)
Theorem twos_complement_any_value (val n : Z) :
  (n < 1 -> twos_complement val n = Raise TypeError) /\
  (1 <= n ->
   twos_complement val n
   = Return (val - (if Z.testbit val (n - 1) then 2 ^ n else 0))).
Proof.
  unfold twos_complement. split; intros Hn.
  - destruct (Z.ltb_spec (n - 1) 0); [reflexivity|lia].
  - destruct (Z.ltb_spec (n - 1) 0); [lia|]. f_equal.
    assert (Hp : 2 ^ n = 2 * 2 ^ (n - 1)).
    { replace n with (Z.succ (n - 1)) at 1 by lia. apply Z.pow_succ_r. lia. }
    pose proof (land_lnot_split val (2 ^ (n - 1))) as Hs.
    rewrite land_pow2 in * by lia.
    destruct (Z.testbit val (n - 1)); lia.
Qed.

(** ** ax_send: how far it goes and how long it waits *)





(** ** ax_read and ax_read_double: bytes in, bytes out *)

(** What follows the send in [ax_read(reg)] without convert. *)
Lemma recv_raw (P : Platform) ks t w :
  (h <- i2c None None ;;
   I2C_recv P h 1 AX_ADDR) (after ks 0 t w)
  = (Return [recv_byte P (n_recv w)],
     after ks 1 (t ++ [EvRecv 1 AX_ADDR [recv_byte P (n_recv w)]]) w).
Proof.
  rewrite (bind_Return _ _ _ _ _ (i2c_default _)), with_i2c_after.
  unfold I2C_recv. simpl. rewrite Nat.add_0_r. f_equal.
  unfold after, add_event, count_recv. simpl. f_equal; try lia.
  now rewrite <- !app_assoc.
Qed.

(** A read that does not return has received nothing. *)
Lemma ax_read_fails_early (P : Platform) reg w o w' :
  ax_read P reg true w = (o, w') ->
  (forall v, o <> Return v) ->
  n_recv w' = n_recv w.
Proof.
  intros H Hno.
  destruct (ax_send_cases P (DInt reg) DEFAULT_MAX_ATTEMPTS w)
    as [(k & Hk & Hfail & Hok & _)|(w1 & Hr & t & _ & _ & Hn)].
  - rewrite (ax_read_succeeds P reg w k Hk Hfail Hok) in H.
    injection H as <- _. now destruct (Hno _ eq_refl).
  - unfold ax_read in H. rewrite (bind_Raise _ _ _ _ _ Hr) in H.
    injection H as _ <-. exact Hn.
Qed.

(** X7. ax_read takes exactly one byte from the device.  With convert the
    result is that byte as an int in [0, 255]; without convert it is the
    one-byte payload itself, read in the same way and leaving the same
    world, and int.from_bytes of it is the converted result.  A read that
    raises has received nothing. *)
Theorem ax_read_one_byte (P : Platform) (reg : Z) (w : World) :
  (forall v w',
      ax_read P reg true w = (Return v, w') ->
      0 <= v <= 255 /\
      n_recv w' = S (n_recv w) /\
      v = int_from_bytes_big [recv_byte P (n_recv w)] /\
      ax_read P reg false w = (Return [recv_byte P (n_recv w)], w')) /\
  (forall e w',
      ax_read P reg true w = (Raise e, w') -> n_recv w' = n_recv w).
Proof.
  split.
  - intros v w' H.
    apply ax_read_Return in H as (k & Hk & Hfail & Hok & -> & ->).
    pose proof (int_of_byte_range (recv_byte P (n_recv w))).
    split; [lia|]. split; [simpl; lia|]. split; [reflexivity|].
    unfold ax_read.
    rewrite (bind_Return _ _ _ _ _ (ax_send_succeeds P _ _ _ _ Hk Hfail Hok)).
    rewrite recv_raw. unfold read_trace. now rewrite <- app_assoc.
  - intros e w' H. apply (ax_read_fails_early P reg w _ _ H). discriminate.
Qed.

Lemma ax_read_one_byte_witness :
  ax_read (steady [xa5] []) WHO_AM_I false module_init
  = (Return [xa5], snd (ax_read (steady [xa5] []) WHO_AM_I true module_init)).
Proof.
  destruct (ax_read_one_byte (steady [xa5] []) WHO_AM_I module_init) as [H _].
  destruct (H 0xa5 (snd (ax_read (steady [xa5] []) WHO_AM_I true module_init)))
    as (_ & _ & _ & E).
  - vm_compute. reflexivity.
  - exact E.
Defined.

(** X8. The combined form of ax_read_double is a 16-bit value, and its list
    form is that value split in two: in any world where the combined form
    returns v, v lies in [0, 65535], two bytes were received, and the list
    form returns [v // 256, v % 256] and leaves the same world. *)
Theorem ax_read_double_16bit (P : Platform) (addr_h addr_l : Z) (w : World)
    (v : Z) (w' : World) :
  ax_read_double P addr_h addr_l false w = (Return v, w') ->
  0 <= v <= 65535 /\
  n_recv w' = (n_recv w + 2)%nat /\
  ax_read_double P addr_h addr_l true w = (Return [v / 256; v mod 256], w').
Proof.
  intros H. unfold ax_read_double in H.
  apply bind_Return_inv in H as (res_h & w1 & H1 & H).
  apply bind_Return_inv in H as (res_l & w2 & H2 & H).
  injection H as <- <-.
  unfold ax_read_double.
  rewrite (bind_Return _ _ _ _ _ H1), (bind_Return _ _ _ _ _ H2).
  destruct (two_reads_Return P _ _ _ _ _ _ _ H1 H2) as (k1 & k2 & -> & -> & ->).
  pose proof (int_of_byte_range (recv_byte P (n_recv w))) as Hh.
  pose proof (int_of_byte_range (recv_byte P (n_recv w + 1))) as Hl.
  split; [lia|]. split; [reflexivity|].
  unfold ret. f_equal. f_equal. f_equal; [|f_equal].
  - apply (Z.div_unique_pos _ 256 _ (int_of_byte (recv_byte P (n_recv w + 1)))); lia.
  - apply (Z.mod_unique_pos _ 256 (int_of_byte (recv_byte P (n_recv w))) _); lia.
Qed.

Lemma ax_read_double_16bit_witness :
  ax_read_double (steady [x12; x34] []) ACCEL_XOUT_H ACCEL_XOUT_L true
    module_init
  = (Return [0x1234 / 256; 0x1234 mod 256],
     snd (ax_read_double (steady [x12; x34] []) ACCEL_XOUT_H ACCEL_XOUT_L false
            module_init)).
Proof.
  apply (ax_read_double_16bit (steady [x12; x34] []) ACCEL_XOUT_H ACCEL_XOUT_L
           module_init 0x1234).
  vm_compute. reflexivity.
Defined.

(** ** ax_x, ax_y, ax_z and get_data_string *)

Lemma ax_axis_Return (P : Platform) (FULL_SCALE_CHOICE addr_h addr_l : Z)
    (w : World) (v : Z) (w' : World) :
  ax_axis P FULL_SCALE_CHOICE addr_h addr_l w = (Return v, w') ->
  exists k1 k2,
    v = axis_value FULL_SCALE_CHOICE (recv_byte P (n_recv w))
          (recv_byte P (n_recv w + 1)) /\
    w' = after (S k1 + S k2) 2
           (read_trace addr_h k1 (recv_byte P (n_recv w))
              ++ read_trace addr_l k2 (recv_byte P (n_recv w + 1))) w.
Proof.
  intros H. unfold ax_axis in H.
  apply bind_Return_inv in H as (raw & w1 & Hd & H).
  apply bind_Return_inv in H as (s & w1' & Hs & H).
  injection H as <- <-.
  unfold ax_read_double in Hd.
  apply bind_Return_inv in Hd as (res_h & w2 & H1 & Hd).
  apply bind_Return_inv in Hd as (res_l & w3 & H2 & Hd).
  injection Hd as <- <-.
  destruct (two_reads_Return P _ _ _ _ _ _ _ H1 H2) as (k1 & k2 & -> & -> & ->).
  pose proof (int_of_byte_range (recv_byte P (n_recv w))) as Hh.
  pose proof (int_of_byte_range (recv_byte P (n_recv w + 1))) as Hl.
  unfold lift in Hs.
  rewrite twos_complement_formula in Hs by (change (2 ^ 16) with 65536; lia).
  injection Hs as <- <-. exists k1, k2. split; reflexivity.
Qed.

Lemma signed16_range (raw : Z) :
  0 <= raw <= 65535 -> -32768 <= signed16 raw <= 32767.
Proof.
  intros H. unfold signed16. destruct (Z.leb_spec 32768 raw); lia.
Qed.

Lemma axis_value_range (c : Z) (high low : byte) :
  0 <= c ->
  -8192 * c <= axis_value c high low <= 8192 * c.
Proof.
  intros Hc. unfold axis_value.
  pose proof (int_of_byte_range high) as Hh.
  pose proof (int_of_byte_range low) as Hl.
  pose proof (signed16_range (int_of_byte high * 256 + int_of_byte low)) as Hs.
  set (s := signed16 (int_of_byte high * 256 + int_of_byte low)) in *.
  assert (Hs' : -32768 <= s <= 32767) by (apply Hs; lia).
  split.
  - apply Z.div_le_lower_bound; [lia|]. nia.
  - apply Z.div_le_upper_bound; [lia|]. nia.
Qed.

(** X9. Each axis reader, when it returns, has read its two registers,
    high byte first (0x3B, 0x3C for x; 0x3D, 0x3E for y; 0x3F, 0x40 for z),
    and returns the 16-bit pattern high * 256 + low read as a signed value,
    times FULL_SCALE_CHOICE, floor-divided by 4. *)
Theorem ax_xyz_value (P : Platform) (FULL_SCALE_CHOICE : Z) (w : World)
    (high low : byte) :
  recv_byte P (n_recv w) = high ->
  recv_byte P (n_recv w + 1) = low ->
  forall reader addr_h addr_l,
    In (reader, addr_h, addr_l)
      [(ax_x P FULL_SCALE_CHOICE, 0x3B, 0x3C);
       (ax_y P FULL_SCALE_CHOICE, 0x3D, 0x3E);
       (ax_z P FULL_SCALE_CHOICE, 0x3F, 0x40)] ->
    forall v w',
      reader w = (Return v, w') ->
      v = signed16 (int_of_byte high * 256 + int_of_byte low)
          * FULL_SCALE_CHOICE / 4 /\
      exists k1 k2,
        log w' = log w ++ i2c_trace w
                   ++ read_trace addr_h k1 high ++ read_trace addr_l k2 low.
Proof.
  intros Hh Hl reader addr_h addr_l Hin v w' H.
  assert (Haxis : ax_axis P FULL_SCALE_CHOICE addr_h addr_l w = (Return v, w')).
  { destruct Hin as [E|[E|[E|[]]]]; injection E as <- <- <-; exact H. }
  apply ax_axis_Return in Haxis as (k1 & k2 & -> & ->).
  rewrite Hh, Hl. split; [reflexivity|]. exists k1, k2. reflexivity.
Qed.

Lemma ax_xyz_value_witness :
  -1 = signed16 (int_of_byte xff * 256 + int_of_byte xfe) * 2 / 4 /\
  exists k1 k2,
    log (snd (ax_y (steady [xff; xfe] []) 2 module_init))
    = log module_init ++ i2c_trace module_init
        ++ read_trace 0x3D k1 xff ++ read_trace 0x3E k2 xfe.
Proof.
  apply (ax_xyz_value (steady [xff; xfe] []) 2 module_init xff xfe
           eq_refl eq_refl (ax_y (steady [xff; xfe] []) 2) 0x3D 0x3E).
  - right. left. reflexivity.
  - vm_compute. reflexivity.
Defined.

(** X10. With a non-negative FULL_SCALE_CHOICE c, whatever an axis reader
    returns lies within [-8192 * c, 8192 * c]; with c at most 16 it fits
    the C int of array('i'), so appending it to the buffer of read_buf never
    overflows; and with c positive it is negative exactly when the high
    byte has its top bit set. *)
Theorem ax_xyz_range (P : Platform) (FULL_SCALE_CHOICE : Z) (w : World)
    (reader : M Z) (v : Z) (w' : World) :
  In reader [ax_x P FULL_SCALE_CHOICE; ax_y P FULL_SCALE_CHOICE;
             ax_z P FULL_SCALE_CHOICE] ->
  reader w = (Return v, w') ->
  0 <= FULL_SCALE_CHOICE ->
  -8192 * FULL_SCALE_CHOICE <= v <= 8192 * FULL_SCALE_CHOICE /\
  (FULL_SCALE_CHOICE <= 16 -> array_append [] v = Return [v]) /\
  (0 < FULL_SCALE_CHOICE ->
   (v < 0 <-> 128 <= int_of_byte (recv_byte P (n_recv w)))).
Proof.
  intros Hin H Hc.
  assert (Haxis : exists addr_h addr_l,
             ax_axis P FULL_SCALE_CHOICE addr_h addr_l w = (Return v, w')).
  { destruct Hin as [<-|[<-|[<-|[]]]]; eauto. }
  destruct Haxis as (addr_h & addr_l & Haxis).
  apply ax_axis_Return in Haxis as (k1 & k2 & -> & _).
  pose proof (axis_value_range FULL_SCALE_CHOICE (recv_byte P (n_recv w))
                (recv_byte P (n_recv w + 1)) Hc) as Hr.
  split; [exact Hr|]. split.
  - intros Hc16. unfold array_append, fits_c_int.
    destruct (Z.leb_spec (- 2 ^ 31) (axis_value FULL_SCALE_CHOICE
                (recv_byte P (n_recv w)) (recv_byte P (n_recv w + 1))));
      [|change (2 ^ 31) with 2147483648 in *; lia].
    destruct (Z.ltb_spec (axis_value FULL_SCALE_CHOICE
                (recv_byte P (n_recv w)) (recv_byte P (n_recv w + 1))) (2 ^ 31));
      [reflexivity|change (2 ^ 31) with 2147483648 in *; lia].
  - intros Hpos. unfold axis_value, signed16.
    pose proof (int_of_byte_range (recv_byte P (n_recv w))) as Hh.
    pose proof (int_of_byte_range (recv_byte P (n_recv w + 1))) as Hl.
    set (h := int_of_byte (recv_byte P (n_recv w))) in *.
    set (l := int_of_byte (recv_byte P (n_recv w + 1))) in *.
    destruct (Z.leb_spec 32768 (h * 256 + l)) as [Hge|Hlt].
    + split; [lia|]. intros _.
      apply Z.div_lt_upper_bound; [lia|]. nia.
    + split; [|lia]. intros Hneg.
      assert (0 <= (h * 256 + l) * FULL_SCALE_CHOICE / 4)
        by (apply Z.div_pos; nia).
      lia.
Qed.

Lemma ax_xyz_range_witness :
  -8192 * 16 <= -131072 <= 8192 * 16 /\
  (16 <= 16 -> array_append [] (-131072) = Return [-131072]) /\
  (0 < 16 -> (-131072 < 0 <-> 128 <= int_of_byte x80)).
Proof.
  apply (ax_xyz_range (steady [x80; x00] []) 16 module_init
           (ax_x (steady [x80; x00] []) 16) (-131072)
           (snd (ax_x (steady [x80; x00] []) 16 module_init))).
  - left. reflexivity.
  - vm_compute. reflexivity.
  - lia.
Defined.

(** X11. The line get_data_string returns is the clock reading and the
    three axis values, in decimal and separated by single spaces.  The clock
    is read once, first, before any register; then six bytes are received,
    the pairs (high, low) of x, y and z in that order. *)
Theorem get_data_string_line (P : Platform) (FULL_SCALE_CHOICE : Z)
    (w : World) (line : string) (w' : World) :
  get_data_string P FULL_SCALE_CHOICE w = (Return line, w') ->
  let b := fun i => recv_byte P (n_recv w + i) in
  let t := ticks_us_result P (n_ticks w) in
  line = (str t ++ " " ++ str (axis_value FULL_SCALE_CHOICE (b 0%nat) (b 1%nat))
            ++ " " ++ str (axis_value FULL_SCALE_CHOICE (b 2%nat) (b 3%nat))
            ++ " " ++ str (axis_value FULL_SCALE_CHOICE (b 4%nat) (b 5%nat)))%string /\
  n_ticks w' = S (n_ticks w) /\
  n_recv w' = (n_recv w + 6)%nat /\
  exists rest, log w' = log w ++ EvTicks t :: rest.
Proof.
  intros H b t. unfold get_data_string in H.
  apply bind_Return_inv in H as (t0 & w1 & Ht & H).
  injection Ht as <- <-.
  apply bind_Return_inv in H as (x & w2 & Hx & H).
  apply ax_axis_Return in Hx as (k1 & k2 & -> & ->).
  apply bind_Return_inv in H as (y & w3 & Hy & H).
  apply ax_axis_Return in Hy as (k3 & k4 & -> & ->).
  apply bind_Return_inv in H as (z & w4 & Hz & H).
  apply ax_axis_Return in Hz as (k5 & k6 & -> & ->).
  injection H as <- <-.
  cbn [n_recv after add_event count_ticks].
  rewrite <- !Nat.add_assoc. cbn [Nat.add].
  unfold b, t. rewrite Nat.add_0_r.
  split; [reflexivity|]. split; [reflexivity|]. split; [reflexivity|].
  cbn [log after add_event count_ticks]. rewrite <- !app_assoc.
  eexists. reflexivity.
Qed.

Lemma get_data_string_line_witness :
  let b := fun i => recv_byte (steady [xff; xfe; x80; x00; x7f; xff] [123456])
                      (n_recv module_init + i) in
  let t := ticks_us_result (steady [xff; xfe; x80; x00; x7f; xff] [123456])
             (n_ticks module_init) in
  "123456 -1 -16384 16383"%string
  = (str t ++ " " ++ str (axis_value 2 (b 0%nat) (b 1%nat))
       ++ " " ++ str (axis_value 2 (b 2%nat) (b 3%nat))
       ++ " " ++ str (axis_value 2 (b 4%nat) (b 5%nat)))%string.
Proof.
  apply (get_data_string_line (steady [xff; xfe; x80; x00; x7f; xff] [123456]) 2
           module_init "123456 -1 -16384 16383"
           (snd (get_data_string (steady [xff; xfe; x80; x00; x7f; xff] [123456]) 2
                   module_init))).
  vm_compute. reflexivity.
Defined.

(** ** init_accelerometer *)

Lemma register_writes_app (t1 t2 : list event) :
  register_writes (t1 ++ t2) = register_writes t1 ++ register_writes t2.
Proof. apply List.filter_app. Qed.

Lemma register_writes_quiet (t : list event) :
  quiet t = true -> register_writes t = [].
Proof.
  unfold quiet, register_writes.
  induction t as [|e t IH]; [reflexivity|]. simpl.
  destruct (is_register_write e); simpl; [discriminate|]. exact IH.
Qed.

Lemma register_writes_write_trace (bs : list byte) (k : nat) :
  register_writes (write_trace bs k) = [EvSend (DBytes bs) AX_ADDR true].
Proof.
  unfold write_trace.
  now rewrite register_writes_app,
    (register_writes_quiet _ (retry_trace_no_write (DBytes bs) 0 k)).
Qed.

(** The values of FULL_SCALE, key by key. *)
Lemma FULL_SCALE_lookup (c fs : Z) :
  FULL_SCALE !! c = Some fs ->
  (c = 2 /\ fs = 0) \/ (c = 4 /\ fs = 8) \/ (c = 8 /\ fs = 16)
  \/ (c = 16 /\ fs = 24).
Proof.
  intros H.
  destruct (Z.eq_dec c 2) as [->|H2]; [injection H as <-; auto|].
  destruct (Z.eq_dec c 4) as [->|H4]; [injection H as <-; auto|].
  destruct (Z.eq_dec c 8) as [->|H8]; [injection H as <-; auto|].
  destruct (Z.eq_dec c 16) as [->|H16]; [injection H as <-; auto 6|].
  rewrite FULL_SCALE_missing in H by assumption. discriminate.
Qed.

(** The discovery loop sends nothing, receives nothing, reads no clock and
    writes no register; it ends by finding the device or not at all. *)
Lemma wait_for_device_frame (P : Platform) (fuel : nat) :
  forall do_scan w o w',
    wait_for_device P fuel do_scan w = (o, w') ->
    (o = Return tt \/ o = OutOfFuel) /\
    n_send w' = n_send w /\
    n_recv w' = n_recv w /\
    n_ticks w' = n_ticks w /\
    exists t, log w' = log w ++ t /\ quiet t = true.
Proof.
  induction fuel as [|fuel IH]; intros do_scan w o w' H.
  - injection H as <- <-. repeat split; auto.
    exists []. now rewrite app_nil_r.
  - cbn [wait_for_device] in H.
    unfold bind, ret, I2C_scan, I2C_is_ready, print, pyb_delay, emit in H.
    destruct do_scan.
    + rewrite i2c_default in H.
      destruct (decide (AX_ADDR ∈ scan_result P (n_scan (with_i2c w)))) as [Hin|Hout];
        cbv beta iota in H.
      * rewrite i2c_default in H.
        destruct (is_ready_result P _) in H; cbv beta iota in H.
        -- injection H as <- <-. cbn. repeat split; auto.
           rewrite <- !app_assoc. eexists. split; [reflexivity|].
           rewrite !quiet_app, quiet_i2c_trace. reflexivity.
        -- apply IH in H as (Ho & Hs & Hr & Ht & t & Hl & Hq).
           cbn in Hs, Hr, Ht, Hl. repeat split; auto.
           rewrite <- !app_assoc in Hl. eexists. split; [exact Hl|].
           rewrite !quiet_app, quiet_i2c_trace, Hq. reflexivity.
      * apply IH in H as (Ho & Hs & Hr & Ht & t & Hl & Hq).
        cbn in Hs, Hr, Ht, Hl. repeat split; auto.
        rewrite <- !app_assoc in Hl. eexists. split; [exact Hl|].
        rewrite !quiet_app, quiet_i2c_trace, Hq. reflexivity.
    + cbv beta iota in H. rewrite i2c_default in H.
      destruct (is_ready_result P _) in H; cbv beta iota in H.
      * injection H as <- <-. cbn. repeat split; auto.
        rewrite <- !app_assoc. eexists. split; [reflexivity|].
        rewrite !quiet_app, quiet_i2c_trace. reflexivity.
      * apply IH in H as (Ho & Hs & Hr & Ht & t & Hl & Hq).
        cbn in Hs, Hr, Ht, Hl. repeat split; auto.
        rewrite <- !app_assoc in Hl. eexists. split; [exact Hl|].
        rewrite !quiet_app, quiet_i2c_trace, Hq. reflexivity.
Qed.

(** X12. A call of init_accelerometer that returns has issued exactly three
    register writes, in this order, each a read-modify-write of the byte the
    device held: PWR_MGMT_1 with its three clock-select bits set to 001,
    ACCEL_CONFIG with bits 3-4 set to the full-scale code, and PWR_MGMT_1
    with the sleep bit 6 cleared; all other bits are written back as read.
    FULL_SCALE_CHOICE is then one of 2, 4, 8, 16 and the code is 0, 8, 16,
    24 (that is 0, 1, 2, 3 shifted left by 3). *)
Theorem init_accelerometer_three_writes (P : Platform) (FULL_SCALE_CHOICE : Z)
    (fuel : nat) (do_scan : bool) (w w' : World) :
  init_accelerometer P FULL_SCALE_CHOICE fuel do_scan w = (Return tt, w') ->
  let r := fun i => int_of_byte (recv_byte P (n_recv w + i)) in
  exists fs bs1 bs2 bs3 t,
    ((FULL_SCALE_CHOICE = 2 /\ fs = 0) \/ (FULL_SCALE_CHOICE = 4 /\ fs = 8) \/
     (FULL_SCALE_CHOICE = 8 /\ fs = 16) \/ (FULL_SCALE_CHOICE = 16 /\ fs = 24)) /\
    log w' = log w ++ t /\
    register_writes t
    = [EvSend (DBytes bs1) AX_ADDR true; EvSend (DBytes bs2) AX_ADDR true;
       EvSend (DBytes bs3) AX_ADDR true] /\
    map int_of_byte bs1 = [0x6b; Z.lor (Z.land (r 0%nat) (Z.lnot 0x7)) 1] /\
    map int_of_byte bs2 = [0x1c; Z.lor (Z.land (r 1%nat) (Z.lnot 0x18)) fs] /\
    map int_of_byte bs3 = [0x6b; Z.land (r 2%nat) (Z.lnot 0x40)] /\
    n_recv w' = (n_recv w + 3)%nat.
Proof.
  intros H r. unfold init_accelerometer in H.
  apply bind_Return_inv in H as ([] & w1 & Hwait & H).
  apply wait_for_device_frame in Hwait as (_ & _ & Hrecv & _ & t0 & L0 & Q0).
  apply bind_Return_inv in H as (r1 & w2 & H1 & H).
  apply ax_write_masked_Return in H1 as (k1 & k1' & bs1 & Hb1 & H1).
  cbv zeta in H1. destruct H1 as (_ & ->).
  apply bind_Return_inv in H as (fs & w2' & Hfs & H).
  unfold lift, getitem in Hfs.
  destruct (FULL_SCALE !! FULL_SCALE_CHOICE) as [fs'|] eqn:Efs; [|discriminate].
  injection Hfs as -> <-.
  apply bind_Return_inv in H as (r2 & w3 & H2 & H).
  apply ax_write_masked_Return in H2 as (k2 & k2' & bs2 & Hb2 & H2).
  cbv zeta in H2. destruct H2 as (_ & ->).
  apply bind_Return_inv in H as (r3 & w4 & H3 & H).
  apply ax_write_masked_Return in H3 as (k3 & k3' & bs3 & Hb3 & H3).
  cbv zeta in H3. destruct H3 as (_ & ->).
  injection H as <-.
  apply bytearray_Return in Hb1, Hb2, Hb3.
  cbn [n_recv after] in Hb2, Hb3.
  rewrite <- !Nat.add_assoc in Hb3. cbn [Nat.add] in Hb3.
  rewrite Hrecv in Hb1, Hb2, Hb3. subst r. cbv beta. rewrite Nat.add_0_r.
  apply FULL_SCALE_lookup in Efs.
  exists fs, bs1, bs2, bs3. eexists. split; [exact Efs|].
  split; [|split; [|split; [|split; [|split]]]].
  - rewrite !after_after. cbn [log after]. rewrite L0, <- !app_assoc.
    reflexivity.
  - rewrite !register_writes_app, !register_writes_write_trace.
    rewrite (register_writes_quiet _ Q0),
      (register_writes_quiet _ (quiet_i2c_trace w1)),
      !(register_writes_quiet _ (quiet_read_trace _ _ _)).
    reflexivity.
  - exact Hb1.
  - rewrite Hb2. f_equal. f_equal. f_equal.
    destruct Efs as [[_ ->]|[[_ ->]|[[_ ->]|[_ ->]]]]; reflexivity.
  - rewrite Hb3. f_equal. f_equal.
    change (Z.land 0 PWR_MGMT_1_SLEEP_MASK) with 0. apply Z.lor_0_r.
  - cbn [n_recv after]. lia.
Qed.

Lemma init_accelerometer_three_writes_witness :
  let r := fun i => int_of_byte (recv_byte (steady [x40; x00; x41] [])
                                   (n_recv module_init + i)) in
  exists fs bs1 bs2 bs3 t,
    ((4 = 2 /\ fs = 0) \/ (4 = 4 /\ fs = 8) \/
     (4 = 8 /\ fs = 16) \/ (4 = 16 /\ fs = 24)) /\
    log (snd (init_accelerometer (steady [x40; x00; x41] []) 4 1 true module_init))
    = log module_init ++ t /\
    register_writes t
    = [EvSend (DBytes bs1) AX_ADDR true; EvSend (DBytes bs2) AX_ADDR true;
       EvSend (DBytes bs3) AX_ADDR true] /\
    map int_of_byte bs1 = [0x6b; Z.lor (Z.land (r 0%nat) (Z.lnot 0x7)) 1] /\
    map int_of_byte bs2 = [0x1c; Z.lor (Z.land (r 1%nat) (Z.lnot 0x18)) fs] /\
    map int_of_byte bs3 = [0x6b; Z.land (r 2%nat) (Z.lnot 0x40)] /\
    n_recv (snd (init_accelerometer (steady [x40; x00; x41] []) 4 1 true module_init))
    = (n_recv module_init + 3)%nat.
Proof.
  apply (init_accelerometer_three_writes (steady [x40; x00; x41] []) 4 1 true
           module_init).
  vm_compute. reflexivity.
Defined.

(** X13. With no device the discovery never gives up and never fails.  When
    the scan never lists address 104, init_accelerometer(do_scan=True) is
    still waiting after any number of rounds: each round is one scan and one
    delay of 1000, is_ready is never called, nothing is sent to the device.
    When is_ready never answers true, it is still waiting after any number
    of rounds too, with or without the scan. *)
Theorem init_accelerometer_waits_for_device (P : Platform)
    (FULL_SCALE_CHOICE : Z) :
  ((forall n, AX_ADDR ∉ scan_result P n) ->
   forall fuel w,
   exists w' t,
     init_accelerometer P FULL_SCALE_CHOICE fuel true w = (OutOfFuel, w') /\
     n_scan w' = (n_scan w + fuel)%nat /\
     n_ready w' = n_ready w /\
     n_send w' = n_send w /\
     log w' = log w ++ t /\
     delays_of t = repeat (inject_Z 1000) fuel) /\
  ((forall n, is_ready_result P n = false) ->
   forall fuel do_scan w,
   exists w',
     init_accelerometer P FULL_SCALE_CHOICE fuel do_scan w = (OutOfFuel, w') /\
     n_send w' = n_send w).
Proof.
  split.
  - intros Habsent fuel w.
    assert (Hloop : exists w' t,
               wait_for_device P fuel true w = (OutOfFuel, w') /\
               n_scan w' = (n_scan w + fuel)%nat /\
               n_ready w' = n_ready w /\
               n_send w' = n_send w /\
               log w' = log w ++ t /\
               delays_of t = repeat (inject_Z 1000) fuel).
    { revert w. induction fuel as [|fuel IH]; intros w.
      - exists w, []. cbn. rewrite app_nil_r. repeat split; auto.
      - cbn [wait_for_device].
        unfold bind, ret, I2C_scan, print, pyb_delay, emit.
        rewrite i2c_default.
        destruct (decide (AX_ADDR ∈ scan_result P (n_scan (with_i2c w))))
          as [Hin|_]; [now destruct (Habsent _ Hin)|].
        cbv beta iota.
        match goal with
        | |- context [wait_for_device P fuel true ?w0] =>
            destruct (IH w0) as (w' & t & E & Hs & Hr & Hn & Hl & Hd)
        end.
        rewrite E. cbn in Hs, Hr, Hn, Hl. rewrite <- !app_assoc in Hl.
        exists w'. eexists. split; [reflexivity|].
        split; [lia|]. split; [exact Hr|]. split; [exact Hn|].
        split; [exact Hl|].
        rewrite delays_of_app, delays_of_i2c_trace. cbn. now rewrite Hd. }
    destruct Hloop as (w' & t & E & Hrest).
    exists w', t. split; [|exact Hrest].
    unfold init_accelerometer, bind. now rewrite E.
  - intros Hnot fuel do_scan w.
    assert (Hloop : forall o w',
               wait_for_device P fuel do_scan w = (o, w') -> o = OutOfFuel).
    { revert w. induction fuel as [|fuel IH]; intros w o w' H.
      - now injection H as <- _.
      - cbn [wait_for_device] in H.
        unfold bind, ret, I2C_scan, I2C_is_ready, print, pyb_delay, emit in H.
        destruct do_scan.
        + rewrite i2c_default in H.
          destruct (decide (AX_ADDR ∈ scan_result P (n_scan (with_i2c w))));
            cbv beta iota in H.
          * rewrite i2c_default, Hnot in H. cbv beta iota in H.
            now apply IH in H.
          * now apply IH in H.
        + cbv beta iota in H. rewrite i2c_default, Hnot in H.
          cbv beta iota in H. now apply IH in H. }
    destruct (wait_for_device P fuel do_scan w) as [o w'] eqn:E.
    pose proof (Hloop _ _ eq_refl) as ->.
    destruct (wait_for_device_frame P fuel _ _ _ _ E) as (_ & Hs & _).
    exists w'. split; [|exact Hs].
    unfold init_accelerometer, bind. now rewrite E.
Qed.

Lemma init_accelerometer_waits_for_device_witness :
  exists w' t,
    init_accelerometer absent 2 3 true module_init = (OutOfFuel, w') /\
    n_scan w' = (n_scan module_init + 3)%nat /\
    n_ready w' = n_ready module_init /\
    n_send w' = n_send module_init /\
    log w' = log module_init ++ t /\
    delays_of t = repeat (inject_Z 1000) 3.
Proof.
  destruct (init_accelerometer_waits_for_device absent 2) as [H _].
  apply H. intros n Hin. apply (not_elem_of_nil _ Hin).
Defined.

(** X14. A failure of the bus during configuration is not swallowed: once
    the device is found, if the next ten sends all fail, init_accelerometer
    raises OSError("Failed to send") out of its first register read, after
    exactly ten attempts and without having written any register. *)
Theorem init_accelerometer_propagates_bus_failure (P : Platform)
    (FULL_SCALE_CHOICE : Z) (fuel : nat) (do_scan : bool) (w w1 : World) :
  wait_for_device P fuel do_scan w = (Return tt, w1) ->
  (forall i, (i < 10)%nat -> send_ok P (n_send w1 + i) = false) ->
  exists w' t,
    init_accelerometer P FULL_SCALE_CHOICE fuel do_scan w
    = (Raise (OSError "Failed to send"), w') /\
    n_send w' = (n_send w + 10)%nat /\
    n_recv w' = n_recv w /\
    log w' = log w ++ t /\
    quiet t = true.
Proof.
  intros Hwait Hfail.
  assert (Esend : ax_send P (DInt PWR_MGMT_1) DEFAULT_MAX_ATTEMPTS w1
                  = (Raise (OSError "Failed to send"),
                     after 10 0 (retry_trace (DInt PWR_MGMT_1) 0 10) w1)).
  { apply (ax_send_exhausted P (DInt PWR_MGMT_1) DEFAULT_MAX_ATTEMPTS w1).
    - reflexivity.
    - exact Hfail. }
  assert (Eread : ax_read P PWR_MGMT_1 true w1
                  = (Raise (OSError "Failed to send"),
                     after 10 0 (retry_trace (DInt PWR_MGMT_1) 0 10) w1)).
  { unfold ax_read. now rewrite (bind_Raise _ _ _ _ _ Esend). }
  assert (Ewrite : ax_write_masked P PWR_MGMT_1 1 PWR_MGMT_1_CLKSEL_MASK false w1
                   = (Raise (OSError "Failed to send"),
                      after 10 0 (retry_trace (DInt PWR_MGMT_1) 0 10) w1)).
  { unfold ax_write_masked. now rewrite (bind_Raise _ _ _ _ _ Eread). }
  destruct (wait_for_device_frame P fuel _ _ _ _ Hwait)
    as (_ & Hs & Hr & _ & t0 & L0 & Q0).
  eexists. eexists. split.
  - unfold init_accelerometer.
    rewrite (bind_Return _ _ _ _ _ Hwait). apply (bind_Raise _ _ _ _ _ Ewrite).
  - cbn [n_send n_recv log after]. rewrite Hs, Hr, L0, <- !app_assoc.
    split; [reflexivity|]. split; [lia|]. split; [reflexivity|].
    now rewrite !quiet_app, Q0, quiet_i2c_trace, retry_trace_no_write.
Qed.

Lemma init_accelerometer_propagates_bus_failure_witness :
  exists w' t,
    init_accelerometer (flaky 10 [] []) 2 1 true module_init
    = (Raise (OSError "Failed to send"), w') /\
    n_send w' = (n_send module_init + 10)%nat /\
    n_recv w' = n_recv module_init /\
    log w' = log module_init ++ t /\
    quiet t = true.
Proof.
  apply (init_accelerometer_propagates_bus_failure (flaky 10 [] []) 2 1 true
           module_init
           (snd (wait_for_device (flaky 10 [] []) 1 true module_init))).
  - vm_compute. reflexivity.
  - intros i Hi.
    assert (E : n_send (snd (wait_for_device (flaky 10 [] []) 1 true module_init))
                = 0%nat) by (vm_compute; reflexivity).
    rewrite E. cbn. destruct (Nat.leb_spec i 9); [reflexivity|lia].
Defined.

(** ** read_buf: the clock and the complete batch *)

Lemma read_buf_loop_counts (P : Platform) (FULL_SCALE_CHOICE : Z)
    (iterations : nat) :
  forall sample_period buf prev_t t w buf' prev_t' t' w',
    read_buf_loop P FULL_SCALE_CHOICE iterations sample_period buf prev_t t w
    = (Return (buf', prev_t', t'), w') ->
    n_ticks w' = (n_ticks w + iterations)%nat /\
    t' = match iterations with
         | O => t
         | S k => Some (ticks_us_result P (n_ticks w + k))
         end /\
    exists l,
      buf' = buf ++ l /\
      (3 * length l + 2 * n_recv w = 2 * n_recv w')%nat /\
      Forall (fun ts => exists i, (i < iterations)%nat /\
                                  ts = ticks_us_result P (n_ticks w + i))
        (timestamps l).
Proof.
  induction iterations as [|n IH];
    intros sample_period buf prev_t t w buf' prev_t' t' w' H.
  - injection H as <- <- <- <-. split; [lia|]. split; [reflexivity|].
    exists []. rewrite app_nil_r. simpl. repeat split; auto.
  - cbn [read_buf_loop] in H.
    apply bind_Return_inv in H as (t1 & w1 & Ht & H).
    injection Ht as <- <-.
    assert (Hshift : forall l,
               Forall (fun ts => exists i, (i < n)%nat /\
                          ts = ticks_us_result P (S (n_ticks w) + i)) l ->
               Forall (fun ts => exists i, (i < S n)%nat /\
                          ts = ticks_us_result P (n_ticks w + i)) l).
    { intros l. apply List.Forall_impl. intros ts (i & Hi & ->).
      exists (S i). split; [lia|]. f_equal. lia. }
    assert (Hlast : match n with
                    | O => Some (ticks_us_result P (n_ticks w))
                    | S k => Some (ticks_us_result P (S (n_ticks w) + k))
                    end = Some (ticks_us_result P (n_ticks w + n))).
    { destruct n; f_equal; f_equal; lia. }
    destruct (Z.ltb_spec (ticks_diff P (ticks_us_result P (n_ticks w)) prev_t)
                sample_period) as [Hearly|Hdue].
    + apply IH in H as (Hn & -> & l & -> & Hr & Hts).
      cbn [n_ticks n_recv add_event count_ticks] in Hn, Hr, Hts |- *.
      split; [lia|]. split; [exact Hlast|].
      exists l. repeat split; auto.
    + apply bind_Return_inv in H as (b1 & w1' & Hb1 & H).
      apply array_append_Return in Hb1 as [-> ->].
      apply bind_Return_inv in H as (x & w2 & Hx & H).
      apply ax_axis_Return in Hx as (k1 & k2 & _ & ->).
      apply bind_Return_inv in H as (b2 & w2' & Hb2 & H).
      apply array_append_Return in Hb2 as [-> ->].
      apply bind_Return_inv in H as (y & w3 & Hy & H).
      apply ax_axis_Return in Hy as (k3 & k4 & _ & ->).
      apply bind_Return_inv in H as (b3 & w3' & Hb3 & H).
      apply array_append_Return in Hb3 as [-> ->].
      apply bind_Return_inv in H as (z & w4 & Hz & H).
      apply ax_axis_Return in Hz as (k5 & k6 & _ & ->).
      apply bind_Return_inv in H as (b4 & w4' & Hb4 & H).
      apply array_append_Return in Hb4 as [-> ->].
      apply IH in H as (Hn & -> & l & -> & Hr & Hts).
      cbn [n_ticks n_recv after add_event count_ticks] in Hn, Hr, Hts |- *.
      split; [lia|]. split; [exact Hlast|].
      exists (ticks_us_result P (n_ticks w) :: x :: y :: z :: l).
      split; [now rewrite <- !app_assoc|]. split; [simpl; lia|].
      cbn [timestamps]. constructor; [|now apply Hshift].
      exists 0%nat. split; [lia|]. f_equal. lia.
Qed.

(** X15. A call of read_buf that returns has read the clock exactly
    number_of_samples times, once per iteration whether a sample was taken
    or not, and has received six bytes per sample taken.  Its second result
    is the last of these clock readings, and every timestamp in the buffer
    is one of them. *)
Theorem read_buf_reads_clock_each_iteration (P : Platform)
    (FULL_SCALE_CHOICE : Z) (number_of_samples sample_period prev_t : Z)
    (w : World) (buf : list Z) (t : Z) (w' : World) :
  read_buf P FULL_SCALE_CHOICE number_of_samples sample_period prev_t w
  = (Return (buf, t), w') ->
  n_ticks w' = (n_ticks w + Z.to_nat number_of_samples)%nat /\
  t = ticks_us_result P (n_ticks w + Z.to_nat number_of_samples - 1) /\
  (3 * length buf + 2 * n_recv w = 2 * n_recv w')%nat /\
  Forall (fun ts => exists i, (i < Z.to_nat number_of_samples)%nat /\
                              ts = ticks_us_result P (n_ticks w + i))
    (timestamps buf).
Proof.
  intros H. unfold read_buf in H.
  apply bind_Return_inv in H as ([[b p] [t1|]] & w1 & Hl & H); [|discriminate].
  injection H as <- <- <-.
  apply read_buf_loop_counts in Hl as (Hn & Ht & l & -> & Hr & Hts).
  split; [exact Hn|]. split.
  - destruct (Z.to_nat number_of_samples) as [|k]; [discriminate|].
    injection Ht as ->. f_equal. lia.
  - split; [exact Hr|exact Hts].
Qed.

Lemma read_buf_reads_clock_each_iteration_witness :
  1500 = ticks_us_result (steady [] [500; 1200; 1500])
           (n_ticks module_init + Z.to_nat 3 - 1).
Proof.
  apply (read_buf_reads_clock_each_iteration (steady [] [500; 1200; 1500]) 2 3
           1000 0 module_init [1200; 0; 0; 0] 1500
           (snd (read_buf (steady [] [500; 1200; 1500]) 2 3 1000 0 module_init))).
  vm_compute. reflexivity.
Defined.

Lemma ax_axis_steady (P : Platform) (FULL_SCALE_CHOICE addr_h addr_l : Z)
    (w : World) :
  (forall n, send_ok P n = true) ->
  ax_axis P FULL_SCALE_CHOICE addr_h addr_l w
  = (Return (axis_value FULL_SCALE_CHOICE (recv_byte P (n_recv w))
               (recv_byte P (n_recv w + 1))),
     after 2 2
       (read_trace addr_h 0 (recv_byte P (n_recv w))
          ++ read_trace addr_l 0 (recv_byte P (n_recv w + 1))) w).
Proof.
  intros Hok. unfold ax_axis.
  destruct (ax_read_double_steady P addr_h addr_l w Hok) as [E _].
  rewrite (bind_Return _ _ _ _ _ E).
  pose proof (int_of_byte_range (recv_byte P (n_recv w))) as Hh.
  pose proof (int_of_byte_range (recv_byte P (n_recv w + 1))) as Hl.
  unfold bind, lift.
  rewrite twos_complement_formula by (change (2 ^ 16) with 65536; lia).
  reflexivity.
Qed.

Lemma axis_value_fits (c : Z) (high low : byte) :
  0 <= c <= 16 -> fits_c_int (axis_value c high low) = true.
Proof.
  intros Hc. pose proof (axis_value_range c high low) as Hr.
  unfold fits_c_int. apply andb_true_intro.
  split; [apply Z.leb_le|apply Z.ltb_lt];
    change (2 ^ 31) with 2147483648; lia.
Qed.

Lemma bind_lift_Return {A B} (o : outcome A) (a : A) (k : A -> M B) (w : World) :
  o = Return a -> bind (lift o) k w = k a w.
Proof. intros ->. reflexivity. Qed.

Lemma array_append_fits (buf : list Z) (v : Z) :
  fits_c_int v = true -> array_append buf v = Return (buf ++ [v]).
Proof. unfold array_append. now intros ->. Qed.

Lemma last_map_seq {A} (f : nat -> A) (k : nat) :
  forall s d, List.last (map f (seq s (S k))) d = f (s + k)%nat.
Proof.
  induction k as [|k IH]; intros s d.
  - simpl. f_equal. lia.
  - change (seq s (S (S k))) with (s :: seq (S s) (S k)). cbn [map].
    rewrite last_cons_default, IH. f_equal. lia.
Qed.

(** When every reading of the clock is due, every iteration takes its
    sample. *)
Lemma read_buf_loop_all_due (P : Platform) (FULL_SCALE_CHOICE : Z)
    (iterations : nat) :
  (forall n, send_ok P n = true) ->
  0 <= FULL_SCALE_CHOICE <= 16 ->
  forall sample_period buf prev_t t w,
    spaced P sample_period prev_t
      (map (ticks_us_result P) (seq (n_ticks w) iterations)) ->
    Forall (fun ts => fits_c_int ts = true)
      (map (ticks_us_result P) (seq (n_ticks w) iterations)) ->
    exists l prev_t' t' w',
      read_buf_loop P FULL_SCALE_CHOICE iterations sample_period buf prev_t t w
      = (Return (buf ++ l, prev_t', t'), w') /\
      length l = (4 * iterations)%nat /\
      timestamps l = map (ticks_us_result P) (seq (n_ticks w) iterations) /\
      t' = match iterations with
           | O => t
           | S k => Some (ticks_us_result P (n_ticks w + k))
           end.
Proof.
  intros Hok Hc.
  induction iterations as [|k IH]; intros sample_period buf prev_t t w Hsp Hfit.
  - exists [], prev_t, t, w. rewrite app_nil_r. repeat split.
  - cbn [seq map spaced] in Hsp, Hfit. destruct Hsp as [Hdue Hsp].
    inversion Hfit as [|? ? Hfit1 Hfits]; subst.
    cbn [read_buf_loop].
    rewrite (bind_Return _ _ _ _ _
               (eq_refl : utime_ticks_us P w
                          = (Return (ticks_us_result P (n_ticks w)),
                             add_event (EvTicks (ticks_us_result P (n_ticks w)))
                               (count_ticks w)))).
    destruct (Z.ltb_spec (ticks_diff P (ticks_us_result P (n_ticks w)) prev_t)
                sample_period) as [Hearly|_]; [lia|].
    rewrite (bind_lift_Return _ _ _ _ (array_append_fits _ _ Hfit1)).
    unfold ax_x, ax_y, ax_z.
    rewrite (bind_Return _ _ _ _ _ (ax_axis_steady P _ _ _ _ Hok)).
    rewrite (bind_lift_Return _ _ _ _
               (array_append_fits _ _ (axis_value_fits _ _ _ Hc))).
    rewrite (bind_Return _ _ _ _ _ (ax_axis_steady P _ _ _ _ Hok)).
    rewrite (bind_lift_Return _ _ _ _
               (array_append_fits _ _ (axis_value_fits _ _ _ Hc))).
    rewrite (bind_Return _ _ _ _ _ (ax_axis_steady P _ _ _ _ Hok)).
    rewrite (bind_lift_Return _ _ _ _
               (array_append_fits _ _ (axis_value_fits _ _ _ Hc))).
    match goal with
    | |- context [read_buf_loop P FULL_SCALE_CHOICE k sample_period ?b ?p ?t0 ?w0] =>
        destruct (IH sample_period b p t0 w0) as (l & prev_t' & t' & w' & E & Hlen & Hts & Ht');
          [exact Hsp|exact Hfits|]
    end.
    rewrite E. rewrite <- !app_assoc. cbn [app].
    eexists. exists prev_t', t', w'. split; [reflexivity|].
    split; [simpl; lia|]. split.
    + cbn [timestamps seq map]. f_equal. exact Hts.
    + rewrite Ht'. cbn [n_ticks after add_event count_ticks].
      destruct k; f_equal; f_equal; lia.
Qed.

(** X16. When no iteration comes too early, read_buf does what its
    docstring says.  On a bus where every transfer goes through, with
    FULL_SCALE_CHOICE between 0 and 16, number_of_samples >= 1, clock
    readings that fit a C int, each at least sample_period after the one
    before (the first after prev_t): read_buf returns a buffer of exactly
    number_of_samples quadruples whose timestamps are the clock readings in
    order, and its second result is the last timestamp in the buffer. *)
Theorem read_buf_complete_batch (P : Platform) (FULL_SCALE_CHOICE : Z)
    (number_of_samples sample_period prev_t : Z) (w : World) :
  (forall n, send_ok P n = true) ->
  0 <= FULL_SCALE_CHOICE <= 16 ->
  1 <= number_of_samples ->
  let readings :=
    map (ticks_us_result P) (seq (n_ticks w) (Z.to_nat number_of_samples)) in
  spaced P sample_period prev_t readings ->
  Forall (fun ts => fits_c_int ts = true) readings ->
  exists buf w',
    read_buf P FULL_SCALE_CHOICE number_of_samples sample_period prev_t w
    = (Return (buf, List.last readings prev_t), w') /\
    Z.of_nat (length buf) = 4 * number_of_samples /\
    timestamps buf = readings.
Proof.
  intros Hok Hc Hn readings Hsp Hfit.
  destruct (read_buf_loop_all_due P FULL_SCALE_CHOICE
              (Z.to_nat number_of_samples) Hok Hc sample_period [] prev_t None w
              Hsp Hfit) as (l & prev_t' & t' & w' & E & Hlen & Hts & Ht').
  exists l, w'. unfold read_buf. rewrite (bind_Return _ _ _ _ _ E).
  subst readings.
  destruct (Z.to_nat number_of_samples) as [|k] eqn:Ek; [lia|].
  subst t'. cbn [app]. unfold ret. split; [|split; [lia|exact Hts]].
  f_equal. f_equal. f_equal. symmetry. apply last_map_seq.
Qed.

Lemma read_buf_complete_batch_witness :
  exists buf w',
    read_buf (steady [] [1000; 2500; 4000]) 2 3 1000 0 module_init
    = (Return (buf, 4000), w') /\
    Z.of_nat (length buf) = 4 * 3 /\
    timestamps buf = [1000; 2500; 4000].
Proof.
  apply (read_buf_complete_batch (steady [] [1000; 2500; 4000]) 2 3 1000 0
           module_init).
  - intros n. reflexivity.
  - lia.
  - lia.
  - vm_compute. repeat split; discriminate.
  - repeat constructor.
Defined.

(** ** How the driver's functions can end *)

Lemma ends_in_bind {A B} (c : M A) (k : A -> M B)
    (R : A -> Prop) (R' : B -> Prop) (E : exn -> Prop) (running : Prop) :
  ends_in c R E running ->
  (forall a, R a -> ends_in (k a) R' E running) ->
  ends_in (bind c k) R' E running.
Proof.
  intros Hc Hk w o w' H. unfold bind in H.
  destruct (c w) as [[a|e|] w1] eqn:Ec; specialize (Hc _ _ _ Ec); simpl in Hc.
  - exact (Hk a Hc _ _ _ H).
  - now injection H as <- _.
  - now injection H as <- _.
Qed.


Lemma ends_in_ret {A} (a : A) (R : A -> Prop) E running :
  R a -> ends_in (ret a) R E running.
Proof. intros Ha w o w' [= <- _]. exact Ha. Qed.


Lemma ends_in_ticks (P : Platform) E running :
  ends_in (utime_ticks_us P) (fun _ => True) E running.
Proof. intros w o w' [= <- _]. exact I. Qed.


Lemma ends_in_ax_read (P : Platform) reg :
  ends_in (ax_read P reg true) (fun v => 0 <= v < 256) send_failure False.
Proof.
  intros w o w' H.
  destruct (ax_send_cases P (DInt reg) DEFAULT_MAX_ATTEMPTS w)
    as [(k & Hk & Hfail & Hok & _)|(w1 & Hr & _)].
  - rewrite (ax_read_succeeds P reg w k Hk Hfail Hok) in H.
    injection H as <- _. apply int_of_byte_range.
  - unfold ax_read in H. rewrite (bind_Raise _ _ _ _ _ Hr) in H.
    injection H as <- _. reflexivity.
Qed.



Lemma ends_in_ax_read_double (P : Platform) addr_h addr_l :
  ends_in (ax_read_double P addr_h addr_l false)
    (fun v => 0 <= v < 65536) send_failure False.
Proof.
  unfold ax_read_double.
  eapply ends_in_bind; [apply ends_in_ax_read|]. intros h Hh. cbv beta in *.
  eapply ends_in_bind; [apply ends_in_ax_read|]. intros l Hl. cbv beta in *.
  apply ends_in_ret. lia.
Qed.

Lemma ends_in_ax_axis (P : Platform) FULL_SCALE_CHOICE addr_h addr_l :
  ends_in (ax_axis P FULL_SCALE_CHOICE addr_h addr_l)
    (fun _ => True) send_failure False.
Proof.
  unfold ax_axis.
  eapply ends_in_bind; [apply ends_in_ax_read_double|]. intros raw Hraw. cbv beta in *.
  eapply ends_in_bind with (R := fun _ => True).
  - intros w o w' H. unfold lift in H.
    rewrite twos_complement_formula in H by (change (2 ^ 16) with 65536; lia).
    now injection H as <- _.
  - intros v _. now apply ends_in_ret.
Qed.

Lemma ends_in_get_data_string (P : Platform) FULL_SCALE_CHOICE :
  ends_in (get_data_string P FULL_SCALE_CHOICE) (fun _ => True) send_failure False.
Proof.
  unfold get_data_string, ax_x, ax_y, ax_z.
  eapply ends_in_bind; [apply ends_in_ticks|]. intros t _. cbv beta in *.
  eapply ends_in_bind; [apply ends_in_ax_axis|]. intros x _. cbv beta in *.
  eapply ends_in_bind; [apply ends_in_ax_axis|]. intros y _. cbv beta in *.
  eapply ends_in_bind; [apply ends_in_ax_axis|]. intros z _. cbv beta in *.
  now apply ends_in_ret.
Qed.








(** ** The stream of main.py, line by line *)

Lemma printed_app (t1 t2 : list event) :
  printed (t1 ++ t2) = printed t1 ++ printed t2.
Proof.
  induction t1 as [|e t1 IH]; [reflexivity|].
  destruct e; simpl; now rewrite IH.
Qed.

Lemma printed_i2c_trace (w : World) : printed (i2c_trace w) = [].
Proof. unfold i2c_trace. now destruct (_i2c_object w). Qed.

Lemma printed_retry_trace data attempts k :
  printed (retry_trace data attempts k) = [].
Proof.
  revert attempts. induction k as [|k IH]; intros attempts; [reflexivity|].
  simpl. apply IH.
Qed.

Lemma printed_read_trace reg k b : printed (read_trace reg k b) = [].
Proof.
  unfold read_trace. now rewrite printed_app, printed_retry_trace.
Qed.

(** A line that get_data_string returns, and the world it leaves. *)
Lemma get_data_string_Return (P : Platform) (FULL_SCALE_CHOICE : Z)
    (w : World) (line : string) (w' : World) :
  get_data_string P FULL_SCALE_CHOICE w = (Return line, w') ->
  line = data_line P FULL_SCALE_CHOICE (n_ticks w) (n_recv w) 0 /\
  n_ticks w' = S (n_ticks w) /\
  n_recv w' = (n_recv w + 6)%nat /\
  exists t, log w' = log w ++ t /\ printed t = [].
Proof.
  intros H. unfold get_data_string in H.
  apply bind_Return_inv in H as (t0 & w1 & Ht & H).
  injection Ht as <- <-.
  apply bind_Return_inv in H as (x & w2 & Hx & H).
  apply ax_axis_Return in Hx as (k1 & k2 & -> & ->).
  apply bind_Return_inv in H as (y & w3 & Hy & H).
  apply ax_axis_Return in Hy as (k3 & k4 & -> & ->).
  apply bind_Return_inv in H as (z & w4 & Hz & H).
  apply ax_axis_Return in Hz as (k5 & k6 & -> & ->).
  injection H as <- <-.
  cbn [n_recv n_ticks log after add_event count_ticks].
  split.
  - unfold data_line. rewrite Nat.add_0_r.
    repeat (f_equal; try lia).
  - split; [reflexivity|]. split; [lia|].
    rewrite <- !app_assoc. eexists. split; [reflexivity|].
    rewrite !printed_app, !printed_read_trace.
    unfold i2c_trace. cbn [_i2c_object add_event count_ticks after].
    now destruct (_i2c_object w).
Qed.

Lemma data_line_shift (P : Platform) (FULL_SCALE_CHOICE : Z)
    (tick0 byte0 i : nat) :
  data_line P FULL_SCALE_CHOICE (S tick0) (byte0 + 6) i
  = data_line P FULL_SCALE_CHOICE tick0 byte0 (S i).
Proof.
  unfold data_line. repeat (f_equal; try lia).
Qed.

(** X19. While the stream of main.py is running it prints one line per
    iteration and nothing else: after k iterations it has read the clock k
    times, received 6 * k bytes and printed k lines, the i-th of which holds
    the i-th clock reading and the axis values made of bytes 6i .. 6i+5, in
    the format "<t> <x> <y> <z>". *)
Theorem stream_prints_one_line_per_reading (P : Platform)
    (FULL_SCALE_CHOICE : Z) (fuel : nat) (w w' : World) :
  stream P FULL_SCALE_CHOICE fuel w = (OutOfFuel, w') ->
  n_ticks w' = (n_ticks w + fuel)%nat /\
  n_recv w' = (n_recv w + 6 * fuel)%nat /\
  exists t,
    log w' = log w ++ t /\
    printed t
    = map (data_line P FULL_SCALE_CHOICE (n_ticks w) (n_recv w)) (seq 0 fuel).
Proof.
  revert w. induction fuel as [|fuel IH]; intros w H.
  - injection H as <-. split; [lia|]. split; [lia|].
    exists []. now rewrite app_nil_r.
  - cbn [stream] in H. unfold bind at 1 in H.
    destruct (get_data_string P FULL_SCALE_CHOICE w) as [[line| |] w1] eqn:E.
    + apply get_data_string_Return in E as (-> & Ht & Hr & t1 & L1 & P1).
      unfold bind, print, emit in H.
      apply IH in H as (Ht' & Hr' & t2 & L2 & P2).
      cbn [n_ticks n_recv log add_event] in Ht', Hr', L2, P2.
      split; [lia|]. split; [lia|].
      exists ((t1 ++ [EvPrint (data_line P FULL_SCALE_CHOICE (n_ticks w) (n_recv w) 0)]) ++ t2).
      split; [now rewrite L2, L1, !app_assoc|].
      rewrite !printed_app, P1, P2, Ht, Hr. cbn [printed app seq map].
      f_equal. rewrite <- seq_shift, map_map.
      apply map_ext. intros i. apply data_line_shift.
    + discriminate.
    + now destruct (ends_in_get_data_string P FULL_SCALE_CHOICE _ _ _ E).
Qed.

Lemma stream_prints_one_line_per_reading_witness :
  exists t,
    log (snd (stream (steady [xff; xfe] [7; 9]) 2 2 module_init))
    = log module_init ++ t /\
    printed t
    = map (data_line (steady [xff; xfe] [7; 9]) 2 (n_ticks module_init)
             (n_recv module_init)) (seq 0 2).
Proof.
  apply (stream_prints_one_line_per_reading (steady [xff; xfe] [7; 9]) 2 2
           module_init).
  vm_compute. reflexivity.
Defined.

(** ** read_buf: how it can end *)





